(** * ocm-cli, [cmd/ocm/token]: the [token] command

    A shallow embedding of [src/cmd/ocm/token/cmd.go] and of the library
    functions its [run] function calls:

    - [Base64]: Go's [encoding/base64] ([RawURLEncoding], [URLEncoding]);
    - [Strings]: the functions of Go's [strings] package that are used;
    - [Json]: Go's [encoding/json], as far as [jwt-go] uses it;
    - [Jwt]: [github.com/dgrijalva/jwt-go], [Parser.ParseUnverified];
    - the command itself, [run], over an explicit environment of
      collaborators (configuration file, connection, pretty printer) and an
      explicit trace of the calls made and of the bytes written.

    The libraries are dependencies of the repository; they are written
    after their sources ([jwt-go] 3.2.0, the Go standard library). The
    packages [pkg/config] and [pkg/dump] of the repository are not among
    the sources: what [run] asks of them is a parameter, [Env].

    Go strings are [string]s, byte slices are [list byte], Go's [int] and
    [uint] values are in [Z]. *)

From Stdlib Require Import ZArith List Lia Bool.
From Stdlib.Strings Require Import Ascii String Byte.
Import ListNotations.

Set Warnings "-register-all".

Local Open Scope string_scope.
Local Open Scope list_scope.
Local Open Scope Z_scope.

(** ** Bytes as numbers *)

(** [uint(b)] for a byte [b]. *)
Definition Z_of_byte (b : byte) : Z := Z.of_N (Byte.to_N b).

(** [byte(z)]: Go's conversion keeps the low eight bits. *)
Definition byte_of_Z (z : Z) : byte :=
  byte_of_ascii (ascii_of_N (Z.to_N (z mod 256))).

Definition Z_of_ascii (c : ascii) : Z := Z.of_N (N_of_ascii c).

(** [[]byte(s)] and [string(b)]. *)
Definition bytes_of_string (s : string) : list byte := list_byte_of_string s.
Definition string_of_bytes (b : list byte) : string := string_of_list_byte b.

(** Line feed and carriage return. *)
Definition LF : ascii := "010"%char.
Definition CR : ascii := "013"%char.

(** ** Results *)

(** A Go pair [(value, err)] of which only one side is meaningful. *)
Inductive result (E A : Type) : Type :=
| Ok (a : A)
| Err (e : E).
Arguments Ok {E A} a.
Arguments Err {E A} e.

Definition is_ok {E A} (r : result E A) : bool :=
  match r with Ok _ => true | Err _ => false end.

Definition rbind {E A B} (r : result E A) (k : A -> result E B) : result E B :=
  match r with
  | Ok a => k a
  | Err e => Err e
  end.

Definition rmap {E A B} (f : A -> B) (r : result E A) : result E B :=
  rbind r (fun a => Ok (f a)).

(** ** Go's [encoding/base64] *)

Module Base64.

(** [const encodeURL]. *)
Definition encodeURL : string :=
  "ABCDEFGHIJKLMNOPQRSTUVWXYZabcdefghijklmnopqrstuvwxyz0123456789-_".

(** [type Encoding]: the alphabet, the padding character ([None] is
    [NoPadding]) and the strict flag. *)
Record Encoding : Type := {
  encode : string;
  padChar : option ascii;
  strict : bool
}.

(** [URLEncoding = NewEncoding(encodeURL)], padded with ['=']. *)
Definition URLEncoding : Encoding :=
  {| encode := encodeURL; padChar := Some "="%char; strict := false |}.

(** [RawURLEncoding = URLEncoding.WithPadding(NoPadding)]. *)
Definition RawURLEncoding : Encoding :=
  {| encode := encodeURL; padChar := None; strict := false |}.

(** [type CorruptInputError int64]: the offset of the illegal byte. *)
Inductive CorruptInputError : Type :=
| CorruptInput (offset : Z).

(** Position of [c] in the alphabet, counting from [i]. *)
Fixpoint index_from (c : ascii) (alphabet : list ascii) (i : Z) : option Z :=
  match alphabet with
  | [] => None
  | a :: rest => if Ascii.eqb a c then Some i else index_from c rest (i + 1)
  end.

(** [enc.decodeMap[c]]; [None] is the entry [0xff]. *)
Definition decodeMap (enc : Encoding) (c : ascii) : option Z :=
  index_from c (list_ascii_of_string (encode enc)) 0.

(** [enc.encode[i]]. *)
Definition encodeAt (enc : Encoding) (i : Z) : ascii :=
  nth (Z.to_nat i) (list_ascii_of_string (encode enc)) zero.

Definition is_newline (c : ascii) : bool :=
  Ascii.eqb c LF || Ascii.eqb c CR.

Definition is_pad (enc : Encoding) (c : ascii) : bool :=
  match padChar enc with
  | Some p => Ascii.eqb c p
  | None => false
  end.

(** [for si < len(src) && (src[si] == '\n' || src[si] == '\r') { si++ }] *)
Fixpoint skip_newlines (src : list ascii) (si : Z) : list ascii * Z :=
  match src with
  | c :: rest => if is_newline c then skip_newlines rest (si + 1) else (src, si)
  | [] => ([], si)
  end.

(** The end of [decodeQuantum]: the sextets read ([dlen] of them, the
    others zero) are packed into [val], of which [dlen - 1] bytes are
    written; [si] is the offset reached, for the errors of strict mode. *)
Definition quantum_bytes (enc : Encoding) (dbuf : list Z) (si : Z)
  : result CorruptInputError (list byte) :=
  let d i := nth i dbuf 0 in
  let val := Z.lor (Z.lor (Z.lor (Z.shiftl (d 0%nat) 18) (Z.shiftl (d 1%nat) 12))
                          (Z.shiftl (d 2%nat) 6)) (d 3%nat) in
  let b0 := byte_of_Z (Z.shiftr val 16) in
  let b1 := byte_of_Z (Z.shiftr val 8) in
  let b2 := byte_of_Z (Z.shiftr val 0) in
  match List.length dbuf with
  | 4%nat => Ok [b0; b1; b2]
  | 3%nat =>
      if strict enc && negb (Z_of_byte b2 =? 0) then Err (CorruptInput (si - 1))
      else Ok [b0; b1]
  | 2%nat =>
      if strict enc && negb ((Z_of_byte b1 =? 0) && (Z_of_byte b2 =? 0))
      then Err (CorruptInput (si - 2))
      else Ok [b0]
  | _ => Ok []
  end.

(** After the padding of the last quantum: new lines are skipped, anything
    else is trailing garbage. *)
Definition after_padding (enc : Encoding) (dbuf : list Z) (src : list ascii) (si : Z)
  : result CorruptInputError (list byte) :=
  let '(rest, si') := skip_newlines src si in
  rbind (quantum_bytes enc dbuf si')
        (fun out => match rest with
                    | [] => Ok out
                    | _ :: _ => Err (CorruptInput si')
                    end).

(** [Decode]: the loop [for si < len(src)] over [decodeQuantum], and the
    loop of [decodeQuantum] over the four sextets of a quantum, as one
    recursion on the bytes not yet read. [si] is the offset of the next
    byte, [dbuf] the sextets of the current quantum read so far (so
    [j = length dbuf]). *)
Fixpoint decode_from (enc : Encoding) (src : list ascii) (si : Z) (dbuf : list Z)
  : result CorruptInputError (list byte) :=
  match src with
  | [] =>
      match List.length dbuf with
      | 0%nat => Ok []
      | 1%nat => Err (CorruptInput (si - 1))
      | j =>
          match padChar enc with
          | Some _ => Err (CorruptInput (si - Z.of_nat j))
          | None => quantum_bytes enc dbuf si
          end
      end
  | c :: rest =>
      let si := si + 1 in
      match decodeMap enc c with
      | Some out =>
          let dbuf := dbuf ++ [out] in
          if (List.length dbuf =? 4)%nat then
            rbind (quantum_bytes enc dbuf si)
                  (fun b => rmap (app b) (decode_from enc rest si []))
          else decode_from enc rest si dbuf
      | None =>
          if is_newline c then decode_from enc rest si dbuf
          else if negb (is_pad enc c) then Err (CorruptInput (si - 1))
          else
            match List.length dbuf with
            | 0%nat | 1%nat => Err (CorruptInput (si - 1))
            | 2%nat =>
                let '(rest1, si1) := skip_newlines rest si in
                match rest1 with
                | [] => Err (CorruptInput si1)
                | c1 :: rest2 =>
                    if negb (is_pad enc c1) then Err (CorruptInput (si1 - 1))
                    else after_padding enc dbuf rest2 (si1 + 1)
                end
            | _ => after_padding enc dbuf rest si
            end
      end
  end.

(** [func (enc *Encoding) DecodeString(s string) ([]byte, error)]. *)
Definition DecodeString (enc : Encoding) (s : string)
  : result CorruptInputError (list byte) :=
  decode_from enc (list_ascii_of_string s) 0 [].

(** [Encode]: three bytes give four characters; one or two remaining
    bytes give two or three characters and the padding, if any. *)
Fixpoint encode_from (enc : Encoding) (src : list byte) : list ascii :=
  let pad := match padChar enc with Some p => [p] | None => [] end in
  match src with
  | [] => []
  | [s0] =>
      let val := Z.shiftl (Z_of_byte s0) 16 in
      [encodeAt enc (Z.land (Z.shiftr val 18) 63);
       encodeAt enc (Z.land (Z.shiftr val 12) 63)] ++ pad ++ pad
  | [s0; s1] =>
      let val := Z.lor (Z.shiftl (Z_of_byte s0) 16) (Z.shiftl (Z_of_byte s1) 8) in
      [encodeAt enc (Z.land (Z.shiftr val 18) 63);
       encodeAt enc (Z.land (Z.shiftr val 12) 63);
       encodeAt enc (Z.land (Z.shiftr val 6) 63)] ++ pad
  | s0 :: s1 :: s2 :: rest =>
      let val := Z.lor (Z.lor (Z.shiftl (Z_of_byte s0) 16) (Z.shiftl (Z_of_byte s1) 8))
                       (Z_of_byte s2) in
      encodeAt enc (Z.land (Z.shiftr val 18) 63)
      :: encodeAt enc (Z.land (Z.shiftr val 12) 63)
      :: encodeAt enc (Z.land (Z.shiftr val 6) 63)
      :: encodeAt enc (Z.land val 63)
      :: encode_from enc rest
  end.

(** [func (enc *Encoding) EncodeToString(src []byte) string]. *)
Definition EncodeToString (enc : Encoding) (src : list byte) : string :=
  string_of_list_ascii (encode_from enc src).

End Base64.

(** ** Go's [strings] *)

Module Strings.

(** [strings.Split(s, sep)] for a separator of one byte, the only use:
    the substrings between the separators, [[s]] when there is none. *)
Fixpoint Split (s : string) (sep : ascii) : list string :=
  match s with
  | EmptyString => [EmptyString]
  | String c rest =>
      if Ascii.eqb c sep then EmptyString :: Split rest sep
      else
        match Split rest sep with
        | [] => [String c EmptyString]
        | first :: others => String c first :: others
        end
  end.

(** [strings.HasPrefix(s, prefix)]. *)
Definition HasPrefix (s prefix : string) : bool := String.prefix prefix s.

Definition lower (c : ascii) : ascii :=
  let n := Z_of_ascii c in
  if (65 <=? n) && (n <=? 90) then ascii_of_N (Z.to_N (n + 32)) else c.

(** [strings.ToLower(s)] on the bytes below [0x80]; the other bytes are
    kept (no letter outside ASCII has [b], [e], [a] or [r] as its lower
    case, so the test for the prefix ["bearer "] is not affected). *)
Fixpoint ToLower (s : string) : string :=
  match s with
  | EmptyString => EmptyString
  | String c rest => String (lower c) (ToLower rest)
  end.

(** [strings.Repeat(s, count)]. *)
Fixpoint Repeat (s : string) (count : nat) : string :=
  match count with
  | O => EmptyString
  | S n => (s ++ Repeat s n)%string
  end.

End Strings.

(** ** Go's [encoding/json]

    What [jwt-go] uses: [Unmarshal] into a [map[string]interface{}] and
    [Decoder.Decode] into a [MapClaims] (a map of the same type). A JSON
    text is parsed to a [value]; the errors keep their kind, not their
    message or offset. *)

Module Json.

Inductive value : Type :=
| JNull
| JBool (b : bool)
| JNumber (literal : list byte)
| JString (s : list byte)
| JArray (elems : list value)
| JObject (members : list (list byte * value)).

Inductive error : Type :=
| SyntaxError
| UnmarshalTypeError.

Definition quote : byte := x22.
Definition backslash : byte := x5c.

(** [isSpace]. *)
Definition isSpace (c : byte) : bool :=
  match c with
  | x20 | x09 | x0d | x0a => true
  | _ => false
  end.

Fixpoint skip_space (src : list byte) : list byte :=
  match src with
  | c :: rest => if isSpace c then skip_space rest else src
  | [] => []
  end.

Definition is_digit (c : byte) : bool :=
  (48 <=? Z_of_byte c) && (Z_of_byte c <=? 57).

Fixpoint span_digits (src : list byte) : list byte * list byte :=
  match src with
  | c :: rest =>
      if is_digit c then let '(ds, r) := span_digits rest in (c :: ds, r)
      else ([], src)
  | [] => ([], [])
  end.

(** The value of a hexadecimal digit. *)
Definition hexval (c : byte) : option Z :=
  let v := Z_of_byte c in
  if (48 <=? v) && (v <=? 57) then Some (v - 48)
  else if (97 <=? v) && (v <=? 102) then Some (v - 97 + 10)
  else if (65 <=? v) && (v <=? 70) then Some (v - 65 + 10)
  else None.

(** *** Strings *)

(** The letters of the escapes of one character. *)
Definition is_escape_letter (e : byte) : bool :=
  match e with
  | "b" | "f" | "n" | "r" | "t" | x5c | "/" | x22 => true
  | _ => false
  end%byte.

Definition is_hex (c : byte) : bool :=
  match hexval c with Some _ => true | None => false end.

(** The scanner inside a string literal, after the opening quote
    ([stateInString], [stateInStringEsc], [stateInStringEscU...]): the
    bytes up to the closing quote, still escaped, and what follows. *)
Fixpoint scan_string (src : list byte) : result error (list byte * list byte) :=
  match src with
  | [] => Err SyntaxError
  | c :: rest =>
      if Byte.eqb c quote then Ok ([], rest)
      else if Byte.eqb c backslash then
        match rest with
        | [] => Err SyntaxError
        | e :: rest1 =>
            if is_escape_letter e then
              rmap (fun '(raw, r) => (c :: e :: raw, r)) (scan_string rest1)
            else if Byte.eqb e "u"%byte then
              match rest1 with
              | h1 :: h2 :: h3 :: h4 :: rest2 =>
                  if is_hex h1 && is_hex h2 && is_hex h3 && is_hex h4 then
                    rmap (fun '(raw, r) => (c :: e :: h1 :: h2 :: h3 :: h4 :: raw, r))
                         (scan_string rest2)
                  else Err SyntaxError
              | _ => Err SyntaxError
              end
            else Err SyntaxError
        end
      else if Z_of_byte c <? 32 then Err SyntaxError
      else rmap (fun '(raw, r) => (c :: raw, r)) (scan_string rest)
  end.

(** [utf8.RuneError], [unicode.ReplacementChar]. *)
Definition RuneError : Z := 65533.

(** [utf8.EncodeRune]. *)
Definition EncodeRune (r : Z) : list byte :=
  let cont x := byte_of_Z (Z.lor 128 (Z.land x 63)) in
  let three x := [byte_of_Z (Z.lor 224 (Z.shiftr x 12)); cont (Z.shiftr x 6); cont x] in
  if (0 <=? r) && (r <=? 127) then [byte_of_Z r]
  else if (0 <=? r) && (r <=? 2047) then [byte_of_Z (Z.lor 192 (Z.shiftr r 6)); cont r]
  else if (r <? 0) || (1114111 <? r) || ((55296 <=? r) && (r <=? 57343))
  then three RuneError
  else if r <=? 65535 then three r
  else [byte_of_Z (Z.lor 240 (Z.shiftr r 18)); cont (Z.shiftr r 12);
        cont (Z.shiftr r 6); cont r].

(** The table [first] of [unicode/utf8] with its [acceptRanges]: the
    length of the sequence a first byte announces and the range of its
    second byte; [None] for a byte that starts no sequence. *)
Definition first (b0 : Z) : option (nat * Z * Z) :=
  if (194 <=? b0) && (b0 <=? 223) then Some (2%nat, 128, 191)
  else if b0 =? 224 then Some (3%nat, 160, 191)
  else if (225 <=? b0) && (b0 <=? 236) then Some (3%nat, 128, 191)
  else if b0 =? 237 then Some (3%nat, 128, 159)
  else if (238 <=? b0) && (b0 <=? 239) then Some (3%nat, 128, 191)
  else if b0 =? 240 then Some (4%nat, 144, 191)
  else if (241 <=? b0) && (b0 <=? 243) then Some (4%nat, 128, 191)
  else if b0 =? 244 then Some (4%nat, 128, 143)
  else None.

(** [utf8.DecodeRune]: the rune and its width in bytes. *)
Definition DecodeRune (p : list byte) : Z * nat :=
  let is_cont b := (128 <=? b) && (b <=? 191) in
  match map Z_of_byte p with
  | [] => (RuneError, 0%nat)
  | b0 :: rest =>
      if b0 <? 128 then (b0, 1%nat)
      else
        match first b0, rest with
        | Some (2%nat, lo, hi), b1 :: _ =>
            if (lo <=? b1) && (b1 <=? hi)
            then (Z.lor (Z.shiftl (Z.land b0 31) 6) (Z.land b1 63), 2%nat)
            else (RuneError, 1%nat)
        | Some (3%nat, lo, hi), b1 :: b2 :: _ =>
            if (lo <=? b1) && (b1 <=? hi) && is_cont b2
            then (Z.lor (Z.lor (Z.shiftl (Z.land b0 15) 12) (Z.shiftl (Z.land b1 63) 6))
                        (Z.land b2 63), 3%nat)
            else (RuneError, 1%nat)
        | Some (4%nat, lo, hi), b1 :: b2 :: b3 :: _ =>
            if (lo <=? b1) && (b1 <=? hi) && is_cont b2 && is_cont b3
            then (Z.lor (Z.lor (Z.lor (Z.shiftl (Z.land b0 7) 18)
                                      (Z.shiftl (Z.land b1 63) 12))
                               (Z.shiftl (Z.land b2 63) 6))
                        (Z.land b3 63), 4%nat)
            else (RuneError, 1%nat)
        | _, _ => (RuneError, 1%nat)
        end
  end.

(** [getu4]: the rune of an escape [\uXXXX] at the head of [s], or [-1]. *)
Definition getu4 (s : list byte) : Z :=
  match s with
  | x5c :: "u"%byte :: h1 :: h2 :: h3 :: h4 :: _ =>
      match hexval h1, hexval h2, hexval h3, hexval h4 with
      | Some a, Some b, Some c, Some d => ((a * 16 + b) * 16 + c) * 16 + d
      | _, _, _, _ => -1
      end
  | _ => -1
  end.

(** [utf16.IsSurrogate] and [utf16.DecodeRune]. *)
Definition IsSurrogate (r : Z) : bool := (55296 <=? r) && (r <? 57344).

Definition utf16_DecodeRune (r1 r2 : Z) : Z :=
  if (55296 <=? r1) && (r1 <? 56320) && (56320 <=? r2) && (r2 <? 57344)
  then Z.lor (Z.shiftl (r1 - 55296) 10) (r2 - 56320) + 65536
  else RuneError.

(** What a one-letter escape stands for. *)
Definition escaped (e : byte) : byte :=
  match e with
  | "b" => x08
  | "f" => x0c
  | "n" => x0a
  | "r" => x0d
  | "t" => x09
  | _ => e
  end%byte.

(** The loop of [unquoteBytes] over the bytes between the quotes, which
    the scanner has checked: escapes are replaced and the text is coerced
    to well-formed UTF-8. [skip] counts the bytes already consumed by the
    escape or by the rune before them. *)
Fixpoint unquote_from (s : list byte) (skip : nat) : list byte :=
  match s with
  | [] => []
  | c :: rest =>
      match skip with
      | S k => unquote_from rest k
      | O =>
          if Byte.eqb c backslash then
            match rest with
            | [] => []
            | e :: _ =>
                if Byte.eqb e "u"%byte then
                  let rr := getu4 s in
                  if IsSurrogate rr then
                    let dec := utf16_DecodeRune rr (getu4 (skipn 6 s)) in
                    if negb (dec =? RuneError)
                    then EncodeRune dec ++ unquote_from rest 11
                    else EncodeRune RuneError ++ unquote_from rest 5
                  else EncodeRune rr ++ unquote_from rest 5
                else escaped e :: unquote_from rest 1
            end
          else if Z_of_byte c <? 128 then c :: unquote_from rest 0
          else
            let '(rr, size) := DecodeRune s in
            EncodeRune rr ++ unquote_from rest (size - 1)
      end
  end.

Definition unquote (raw : list byte) : list byte := unquote_from raw 0.

(** *** Numbers *)

(** The scanner on a number ([stateNeg], [state0], [state1], [stateDot],
    [stateE], ...): the longest literal at the head of [src] and what
    follows it. *)
Definition scan_number (src : list byte) : result error (list byte * list byte) :=
  let '(sign, s1) :=
    match src with
    | "-"%byte :: r => (["-"%byte], r)
    | _ => ([], src)
    end in
  let '(digits, s2) := span_digits s1 in
  match digits with
  | [] => Err SyntaxError
  | d :: ds =>
      (* after a leading [0] the integer part is over *)
      let '(int, s2) := if Byte.eqb d "0"%byte then ([d], (ds ++ s2)%list) else (digits, s2) in
      let frac :=
        match s2 with
        | "."%byte :: r =>
            let '(fs, s3) := span_digits r in
            match fs with
            | [] => Err SyntaxError
            | _ => Ok ("."%byte :: fs, s3)
            end
        | _ => Ok ([], s2)
        end in
      rbind frac (fun '(fr, s3) =>
        let exp :=
          match s3 with
          | e :: r =>
              if Byte.eqb e "e"%byte || Byte.eqb e "E"%byte then
                let '(sg, r1) :=
                  match r with
                  | c :: r' =>
                      if Byte.eqb c "+"%byte || Byte.eqb c "-"%byte then ([c], r')
                      else ([], r)
                  | [] => ([], r)
                  end in
                let '(es, s4) := span_digits r1 in
                match es with
                | [] => Err SyntaxError
                | _ => Ok (e :: sg ++ es, s4)
                end
              else Ok ([], s3)
          | [] => Ok ([], s3)
          end in
        rbind exp (fun '(ex, s4) => Ok (sign ++ int ++ fr ++ ex, s4)))
  end.

(** The number a string of decimal digits writes. *)
Definition digits_value (ds : list byte) : Z :=
  fold_left (fun acc d => acc * 10 + (Z_of_byte d - 48)) ds 0.

(** [convertNumber]: [strconv.ParseFloat(s, 64)] fails, with a range
    error, on a literal whose value is not within half a unit in the last
    place of the largest [float64], that is when its magnitude
    [m * 10^e] is at least [2^1024 - 2^970]. *)
Definition out_of_float64_range (literal : list byte) : bool :=
  let unsigned := match literal with "-"%byte :: r => r | _ => literal end in
  let '(int, s1) := span_digits unsigned in
  let '(fr, s2) :=
    match s1 with
    | "."%byte :: r => span_digits r
    | _ => ([], s1)
    end in
  let e10 :=
    match s2 with
    | _ :: "-"%byte :: es => - digits_value es
    | _ :: "+"%byte :: es => digits_value es
    | _ :: es => digits_value es
    | [] => 0
    end in
  let m := digits_value (int ++ fr) in
  let e := e10 - Z.of_nat (List.length fr) in
  let limit := 2 ^ 1024 - 2 ^ 970 in
  if 0 <=? e then limit <=? m * 10 ^ e else limit * 10 ^ (- e) <=? m.

(** *** Values *)

(** Whether [src] starts with [lit]; then what follows it. *)
Fixpoint strip_prefix (lit src : list byte) : option (list byte) :=
  match lit, src with
  | [], _ => Some src
  | l :: lit', c :: src' => if Byte.eqb l c then strip_prefix lit' src' else None
  | _ :: _, [] => None
  end.

(** A value that is no object and no array, of first byte [c]: a string,
    a literal or a number. *)
Definition parse_scalar (c : byte) (rest : list byte) : result error (value * list byte) :=
  let literal lit v :=
    match strip_prefix (bytes_of_string lit) rest with
    | Some r => Ok (v, r)
    | None => Err SyntaxError
    end in
  if Byte.eqb c quote then
    rmap (fun '(raw, r) => (JString (unquote raw), r)) (scan_string rest)
  else if Byte.eqb c "t"%byte then literal "rue" (JBool true)
  else if Byte.eqb c "f"%byte then literal "alse" (JBool false)
  else if Byte.eqb c "n"%byte then literal "ull" JNull
  else rmap (fun '(lit, r) => (JNumber lit, r)) (scan_number (c :: rest)).

(** Whether the next byte after white space is [c]; then what follows. *)
Definition expect (c : byte) (src : list byte) : option (list byte) :=
  match skip_space src with
  | c' :: rest => if Byte.eqb c' c then Some rest else None
  | [] => None
  end.

(** The scanner on one value, by recursive descent: the value at the head
    of [src], after white space, and what follows it. A call does not go
    deeper than twice the bytes it has to read, so that the [fuel] of
    [fuel_for] is not used up ([parse_value_fuel]). *)
Fixpoint parse_value (fuel : nat) (src : list byte) {struct fuel}
  : result error (value * list byte) :=
  match fuel with
  | O => Err SyntaxError
  | S fuel =>
      match skip_space src with
      | [] => Err SyntaxError
      | c :: rest =>
          if Byte.eqb c "{"%byte then
            match expect "}"%byte rest with
            | Some rest1 => Ok (JObject [], rest1)
            | None => parse_members fuel rest []
            end
          else if Byte.eqb c "["%byte then
            match expect "]"%byte rest with
            | Some rest1 => Ok (JArray [], rest1)
            | None => parse_elements fuel rest []
            end
          else parse_scalar c rest
      end
  end

(** The elements of an array after [[] or [,]. *)
with parse_elements (fuel : nat) (src : list byte) (acc : list value) {struct fuel}
  : result error (value * list byte) :=
  match fuel with
  | O => Err SyntaxError
  | S fuel =>
      rbind (parse_value fuel src) (fun '(v, rest) =>
        match expect ","%byte rest, expect "]"%byte rest with
        | Some rest1, _ => parse_elements fuel rest1 (acc ++ [v])
        | None, Some rest1 => Ok (JArray (acc ++ [v]), rest1)
        | None, None => Err SyntaxError
        end)
  end

(** The members of an object after [{] or [,]. *)
with parse_members (fuel : nat) (src : list byte) (acc : list (list byte * value))
                   {struct fuel}
  : result error (value * list byte) :=
  match fuel with
  | O => Err SyntaxError
  | S fuel =>
      match expect quote src with
      | Some rest =>
          rbind (scan_string rest) (fun '(raw, rest1) =>
            match expect ":"%byte rest1 with
            | Some rest2 =>
                rbind (parse_value fuel rest2) (fun '(v, rest3) =>
                  let acc := acc ++ [(unquote raw, v)] in
                  match expect ","%byte rest3, expect "}"%byte rest3 with
                  | Some rest4, _ => parse_members fuel rest4 acc
                  | None, Some rest4 => Ok (JObject acc, rest4)
                  | None, None => Err SyntaxError
                  end)
            | None => Err SyntaxError
            end)
      | None => Err SyntaxError
      end
  end.

Definition fuel_for (data : list byte) : nat := (2 * List.length data + 2)%nat.

(** *** Decoding into a map *)

(** A Go [map[string]interface{}]: the members in the order read, a later
    one replacing an earlier one of the same key. *)
Definition Map : Type := list (list byte * value).

(** [m[key]]: the value and whether the key is present. *)
Fixpoint lookup (key : list byte) (m : Map) : option value :=
  match m with
  | [] => None
  | (k, v) :: rest =>
      match lookup key rest with
      | Some v' => Some v'
      | None => if list_eq_dec Byte.byte_eq_dec k key then Some v else None
      end
  end.

(** Whether some number of [v] cannot be stored in a [float64]. *)
Fixpoint range_error (v : value) : bool :=
  match v with
  | JNumber lit => out_of_float64_range lit
  | JArray elems => existsb range_error elems
  | JObject members => existsb (fun kv => range_error (snd kv)) members
  | _ => false
  end.

(** [decodeState.unmarshal] of a value into a map of interfaces: [null]
    leaves the map as it is (empty), an object fills it, anything else
    is an [UnmarshalTypeError], as is a number out of range. *)
Definition store (v : value) : result error Map :=
  match v with
  | JNull => Ok []
  | JObject members => if range_error v then Err UnmarshalTypeError else Ok members
  | _ => Err UnmarshalTypeError
  end.

(** [json.Unmarshal(data, &m)]: [checkValid] wants one value and nothing
    but white space after it. *)
Definition Unmarshal (data : list byte) : result error Map :=
  rbind (parse_value (fuel_for data) data) (fun '(v, rest) =>
    match skip_space rest with
    | [] => store v
    | _ :: _ => Err SyntaxError
    end).

(** [json.NewDecoder(bytes.NewBuffer(data)).Decode(&m)]: [readValue]
    stops at the end of the first value; what follows is left unread. *)
Definition Decode (data : list byte) : result error Map :=
  rbind (parse_value (fuel_for data) data) (fun '(v, _) => store v).

End Json.

(** ** [github.com/dgrijalva/jwt-go] *)

Module Jwt.

(** [type ValidationError]: its message or inner error; the first four
    carry [ValidationErrorMalformed], the last two
    [ValidationErrorUnverifiable]. *)
Inductive ValidationError : Type :=
| InvalidSegments                                (* token contains an invalid number of segments *)
| ContainsBearer                                 (* tokenstring should not contain 'bearer ' *)
| MalformedSegment (Inner : Base64.CorruptInputError)
| MalformedJson (Inner : Json.error)
| AlgUnavailable                                 (* signing method (alg) is unavailable. *)
| AlgUnspecified.                                (* signing method (alg) is unspecified. *)

(** [func DecodeSegment(seg string) ([]byte, error)]: the padding that
    was stripped is put back, then the padded encoding decodes. *)
Definition DecodeSegment (seg : string) : result Base64.CorruptInputError (list byte) :=
  let l := (String.length seg mod 4)%nat in
  let seg := if (0 <? l)%nat then (seg ++ Strings.Repeat "=" (4 - l))%string else seg in
  Base64.DecodeString Base64.URLEncoding seg.

(** The keys of [signingMethods], as the [init] functions of the package
    register them. *)
Definition signingMethods : list string :=
  ["ES256"; "ES384"; "ES512"; "HS256"; "HS384"; "HS512"; "none";
   "RS256"; "RS384"; "RS512"; "PS256"; "PS384"; "PS512"].

(** [func GetSigningMethod(alg string) SigningMethod]: the method of
    that name, [None] for [nil]. *)
Definition GetSigningMethod (alg : string) : option string :=
  if existsb (String.eqb alg) signingMethods then Some alg else None.

(** [func (p *Parser) ParseUnverified(tokenString string, claims Claims)
    (token *Token, parts []string, err error)], for a [Parser] without
    [UseJSONNumber] and [claims] a [MapClaims]. The token, which the
    command discards, is left out: the result is [(parts, err)]. *)
Definition ParseUnverified (tokenString : string)
  : list string * option ValidationError :=
  let parts := Strings.Split tokenString "." in
  if negb (List.length parts =? 3)%nat then (parts, Some InvalidSegments)
  else
    (* parse Header *)
    match DecodeSegment (nth 0 parts "") with
    | Err err =>
        if Strings.HasPrefix (Strings.ToLower tokenString) "bearer "
        then (parts, Some ContainsBearer)
        else (parts, Some (MalformedSegment err))
    | Ok headerBytes =>
        match Json.Unmarshal headerBytes with
        | Err err => (parts, Some (MalformedJson err))
        | Ok Header =>
            (* parse Claims *)
            match DecodeSegment (nth 1 parts "") with
            | Err err => (parts, Some (MalformedSegment err))
            | Ok claimBytes =>
                match Json.Decode claimBytes with
                | Err err => (parts, Some (MalformedJson err))
                | Ok _ =>
                    (* Lookup signature method *)
                    match Json.lookup (bytes_of_string "alg") Header with
                    | Some (Json.JString method) =>
                        match GetSigningMethod (string_of_bytes method) with
                        | None => (parts, Some AlgUnavailable)
                        | Some _ => (parts, None)
                        end
                    | _ => (parts, Some AlgUnspecified)
                    end
                end
            end
        end
    end.

End Jwt.

(** ** The command: [package token] *)

(** [var args struct]. *)
Record Args : Type := {
  header : bool;
  payload : bool;
  signature : bool;
  refresh : bool
}.

(** A Go [error] of a collaborator: its message. *)
Definition error : Type := string.

(** Modelled from the spec: the session, [config.Config] of package
    [pkg/config], whose declaration is not among the sources. It holds
    the two tokens, the fields [run] assigns, and other fields, which
    [run] does not touch. *)
Record Config : Type := {
  AccessToken : string;
  RefreshToken : string;
  Others : list (string * string)
}.

(** Modelled from the spec: the connection [cfg.Connection()] returns,
    of a package that is not among the sources, as what its method
    [Tokens] answers: the access token and the refresh token, or an
    error. *)
Record Connection : Type := {
  Tokens : result error (string * string)
}.

(** Modelled from the spec: the collaborators of [run], of packages
    [pkg/config] and [pkg/dump] that are not among the sources, as
    parameters: loading and saving the session, its armed check, its
    connection, and the pretty printer. [config_Load] is [(cfg, err)] with
    [None] for a [nil] configuration; [dump_Pretty] gives what
    [dump.Pretty] writes to the stream for a body and the error it
    returns. *)
Record Env : Type := {
  config_Load : result error (option Config);
  cfg_Armed : Config -> result error bool;
  cfg_Connection : Config -> result error Connection;
  dump_Pretty : list byte -> string * option error;
  config_Save : Config -> option error
}.

(** What [run] does to the world, in order: the calls of collaborators
    and the writes to [os.Stdout]. *)
Inductive Event : Type :=
| CallLoad
| CallArmed (cfg : Config)
| CallConnection (cfg : Config)
| CallTokens
| CallPretty (body : list byte)
| Write (text : string)
| CallSave (cfg : Config).

Definition Trace : Type := list Event.

(** The errors [run] returns, one for each [fmt.Errorf]; and, which is no
    error returned but the end of the program, the panic of an index out
    of range. *)
Inductive RunError : Type :=
| ErrMutuallyExclusive
| ErrLoadConfig (err : error)
| ErrNotLoggedIn
| ErrCheckExpired (err : error)
| ErrTokensExpired
| ErrCreateConnection (err : error)
| ErrGetToken (err : error)
| ErrParseToken (err : Jwt.ValidationError)
| ErrDecodeHeader (err : Base64.CorruptInputError)
| ErrDecodePayload (err : Base64.CorruptInputError)
| ErrDecodeSignature (err : Base64.CorruptInputError)
| ErrDumpHeader (err : error)
| ErrDumpPayload (err : error)
| ErrDumpSignature (err : error)
| ErrSaveConfig (err : error)
| PanicIndexOutOfRange.

(** The format of each error. *)
Definition format (e : RunError) : string :=
  match e with
  | ErrMutuallyExclusive =>
      "Options '--payload', '--header' and '--signature' are mutually exclusive"
  | ErrLoadConfig _ => "Can't load config file: %v"
  | ErrNotLoggedIn => "Not logged in, run the 'login' command"
  | ErrCheckExpired _ => "Can't check if tokens have expired: %v"
  | ErrTokensExpired => "Tokens have expired, run the 'login' command"
  | ErrCreateConnection _ => "Can't create connection: %v"
  | ErrGetToken _ => "Can't get token: %v"
  | ErrParseToken _ => "Can't parse token: %v"
  | ErrDecodeHeader _ => "Can't decode header: %v"
  | ErrDecodePayload _ => "Can't decode payload: %v"
  | ErrDecodeSignature _ => "Can't decode signature: %v"
  | ErrDumpHeader _ => "Can't dump header: %v"
  | ErrDumpPayload _ => "Can't dump payload: %v"
  | ErrDumpSignature _ => "Can't dump signature: %v"
  | ErrSaveConfig _ => "Can't save config file: %v"
  | PanicIndexOutOfRange => "runtime error: index out of range"
  end.

(** *** A monad for [run]: a trace that grows and an error that stops *)

Definition M (A : Type) : Type := Trace -> result RunError A * Trace.

Definition ret {A} (a : A) : M A := fun t => (Ok a, t).

Definition fail {A} (e : RunError) : M A := fun t => (Err e, t).

Definition bind {A B} (m : M A) (k : A -> M B) : M B :=
  fun t =>
    match m t with
    | (Ok a, t') => k a t'
    | (Err e, t') => (Err e, t')
    end.

(** One more event at the end of the trace. *)
Definition emit (e : Event) : M unit := fun t => (Ok tt, t ++ [e]).

Notation "x <- m ;; k" := (bind m (fun x => k))
  (at level 61, m at next level, right associativity).
Notation "' pat <- m ;; k" := (bind m (fun x => match x with pat => k end))
  (at level 61, pat pattern, m at next level, right associativity).
Notation "m ;;; k" := (bind m (fun _ => k))
  (at level 61, right associativity).

(** *** The steps of [run] *)

(** Lines 76-88, [// Check the options:]. *)
Definition check_options (args : Args) : result RunError unit :=
  let count := 0 in
  let count := if header args then count + 1 else count in
  let count := if payload args then count + 1 else count in
  let count := if signature args then count + 1 else count in
  if 1 <? count then Err ErrMutuallyExclusive else Ok tt.

(** Lines 120-124, [// Select the token according to the options:]. *)
Definition selectedToken (refresh : bool) (accessToken refreshToken : string) : string :=
  let selectedToken := accessToken in
  if refresh then refreshToken else selectedToken.

(** [parts[i]]: the element, or a panic when [i] is out of range. *)
Definition index (parts : list string) (i : nat) : result RunError string :=
  match nth_error parts i with
  | Some part => Ok part
  | None => Err PanicIndexOutOfRange
  end.

(** Lines 126-144, [// Parse the token:]. The byte slices [header],
    [payload] and [signature] of the source are [headerBytes],
    [payloadBytes] and [signatureBytes] here, apart from the options of
    the same names. *)
Definition decode (selectedToken : string)
  : result RunError (list byte * list byte * list byte) :=
  match Jwt.ParseUnverified selectedToken with
  | (_, Some err) => Err (ErrParseToken err)
  | (parts, None) =>
      let encoding := Base64.RawURLEncoding in
      rbind (index parts 0) (fun part0 =>
      match Base64.DecodeString encoding part0 with
      | Err err => Err (ErrDecodeHeader err)
      | Ok headerBytes =>
          rbind (index parts 1) (fun part1 =>
          match Base64.DecodeString encoding part1 with
          | Err err => Err (ErrDecodePayload err)
          | Ok payloadBytes =>
              rbind (index parts 2) (fun part2 =>
              match Base64.DecodeString encoding part2 with
              | Err err => Err (ErrDecodeSignature err)
              | Ok signatureBytes => Ok (headerBytes, payloadBytes, signatureBytes)
              end)
          end)
      end)
  end.

(** [dump.Pretty(os.Stdout, body)]: the call, then what it writes. *)
Definition Pretty (env : Env) (body : list byte) : M (option error) :=
  emit (CallPretty body) ;;;
  let '(text, err) := dump_Pretty env body in
  emit (Write text) ;;;
  ret err.

(** Lines 146-164, [// Print the data:]. *)
Definition print (env : Env) (args : Args)
                 (headerBytes payloadBytes signatureBytes : list byte)
                 (selectedToken : string) : M unit :=
  if header args then
    err <- Pretty env headerBytes ;;
    match err with
    | Some err => fail (ErrDumpHeader err)
    | None => ret tt
    end
  else if payload args then
    err <- Pretty env payloadBytes ;;
    match err with
    | Some err => fail (ErrDumpPayload err)
    | None => ret tt
    end
  else if signature args then
    err <- Pretty env signatureBytes ;;
    match err with
    | Some err => fail (ErrDumpSignature err)
    | None => ret tt
    end
  else
    (* fmt.Fprintf(os.Stdout, "%s\n", selectedToken) *)
    emit (Write (selectedToken ++ String LF "")%string).

(** A result of a pure step, within [M]. *)
Definition lift {A} (r : result RunError A) : M A :=
  match r with
  | Ok a => ret a
  | Err e => fail e
  end.

(** [func run(cmd *cobra.Command, argv []string) error]. *)
Definition run (env : Env) (args : Args) : M unit :=
  (* Check the options: *)
  lift (check_options args) ;;;
  (* Load the configuration file: *)
  emit CallLoad ;;;
  match config_Load env with
  | Err err => fail (ErrLoadConfig err)
  | Ok None => fail ErrNotLoggedIn
  | Ok (Some cfg) =>
      (* Check that the configuration has credentials or tokens that don't
         have expired: *)
      emit (CallArmed cfg) ;;;
      match cfg_Armed env cfg with
      | Err err => fail (ErrCheckExpired err)
      | Ok false => fail ErrTokensExpired
      | Ok true =>
          (* Create the connection: *)
          emit (CallConnection cfg) ;;;
          match cfg_Connection env cfg with
          | Err err => fail (ErrCreateConnection err)
          | Ok connection =>
              (* Get the tokens: *)
              emit CallTokens ;;;
              match Tokens connection with
              | Err err => fail (ErrGetToken err)
              | Ok (accessToken, refreshToken) =>
                  (* Select the token according to the options: *)
                  let selected := selectedToken (refresh args) accessToken refreshToken in
                  (* Parse the token: *)
                  '(headerBytes, payloadBytes, signatureBytes) <- lift (decode selected) ;;
                  (* Print the data: *)
                  print env args headerBytes payloadBytes signatureBytes selected ;;;
                  (* Save the configuration: *)
                  let cfg := {| AccessToken := accessToken;
                                RefreshToken := refreshToken;
                                Others := Others cfg |} in
                  emit (CallSave cfg) ;;;
                  match config_Save env cfg with
                  | Some err => fail (ErrSaveConfig err)
                  | None =>
                      (* Bye: *)
                      ret tt
                  end
              end
          end
      end
  end.

(** One invocation: the error returned, if any, and the trace. *)
Definition exec (env : Env) (args : Args) : result RunError unit * Trace :=
  run env args [].

(** What a trace wrote to [os.Stdout]. *)
Fixpoint stdout (t : Trace) : string :=
  match t with
  | [] => ""
  | Write text :: rest => (text ++ stdout rest)%string
  | _ :: rest => stdout rest
  end.

(** The configurations a trace saved, in order. *)
Fixpoint saved (t : Trace) : list Config :=
  match t with
  | [] => []
  | CallSave cfg :: rest => cfg :: saved rest
  | _ :: rest => saved rest
  end.

(** *** The words of the specification *)

(** [DisplayMode]: what the three options ask for. *)
Inductive DisplayMode : Type :=
| full
| header_mode
| payload_mode
| signature_mode.

(** How many of the three options are set. *)
Definition flags_set (args : Args) : nat :=
  ((if header args then 1 else 0) + (if payload args then 1 else 0)
   + (if signature args then 1 else 0))%nat.

(** The mode validator of the specification: more than one option is a
    configuration error, none is [full], one is its mode. *)
Definition validate (args : Args) : result RunError DisplayMode :=
  match header args, payload args, signature args with
  | false, false, false => Ok full
  | true, false, false => Ok header_mode
  | false, true, false => Ok payload_mode
  | false, false, true => Ok signature_mode
  | _, _, _ => Err ErrMutuallyExclusive
  end.

(** The render dispatcher of the specification. *)
Definition render (env : Env) (mode : DisplayMode)
                  (headerBytes payloadBytes signatureBytes : list byte)
                  (rawToken : string) : M unit :=
  let pretty body wrap :=
    err <- Pretty env body ;;
    match err with
    | Some err => fail (wrap err)
    | None => ret tt
    end in
  match mode with
  | full => emit (Write (rawToken ++ String LF "")%string)
  | header_mode => pretty headerBytes ErrDumpHeader
  | payload_mode => pretty payloadBytes ErrDumpPayload
  | signature_mode => pretty signatureBytes ErrDumpSignature
  end.

(** A character of the base64url alphabet. *)
Definition in_alphabet (c : ascii) : bool :=
  match Base64.decodeMap Base64.RawURLEncoding c with
  | Some _ => true
  | None => false
  end.

(** A segment that is valid base64url with no padding: characters of the
    alphabet only, and not one character more than a multiple of four. *)
Definition base64url_nopad (seg : string) : bool :=
  forallb in_alphabet (list_ascii_of_string seg)
  && negb (String.length seg mod 4 =? 1)%nat.

(** A segment with a padding character ['='] or another character outside
    the alphabet, line feed and carriage return apart. *)
Definition offending (seg : string) : bool :=
  existsb (fun c => negb (in_alphabet c) && negb (Base64.is_newline c))
          (list_ascii_of_string seg).

(** The offset of the first such character, counting from [i]: the one
    that the decoding error of the segment reports. *)
Fixpoint first_offending_from (l : list ascii) (i : Z) : Z :=
  match l with
  | [] => i
  | c :: rest =>
      if negb (in_alphabet c) && negb (Base64.is_newline c) then i
      else first_offending_from rest (i + 1)
  end.

Definition first_offending (seg : string) : Z :=
  first_offending_from (list_ascii_of_string seg) 0.

(** A segment with any character outside the alphabet. *)
Definition outside_alphabet (seg : string) : bool :=
  existsb (fun c => negb (in_alphabet c)) (list_ascii_of_string seg).

(** The three segments joined by ['.']. *)
Definition join3 (h p s : string) : string :=
  (h ++ "." ++ p ++ "." ++ s)%string.

(** The reference encoder: base64url without padding. *)
Definition encode_segment (b : list byte) : string :=
  Base64.EncodeToString Base64.RawURLEncoding b.

(** What the JWT parser wants of the decoded header: JSON that unmarshals
    into a map whose ["alg"] is a string naming a registered method. *)
Definition header_accepted (headerBytes : list byte) : bool :=
  match Json.Unmarshal headerBytes with
  | Ok Header =>
      match Json.lookup (bytes_of_string "alg") Header with
      | Some (Json.JString method) =>
          match Jwt.GetSigningMethod (string_of_bytes method) with
          | Some _ => true
          | None => false
          end
      | _ => false
      end
  | Err _ => false
  end.

(** What the JWT parser wants of the decoded payload: a first JSON value
    that decodes into a map. *)
Definition claims_accepted (claimBytes : list byte) : bool :=
  is_ok (Json.Decode claimBytes).

(** The environment [env] with a connection that answers [tokens]. *)
Definition with_tokens (env : Env) (tokens : string * string) : Env :=
  {| config_Load := config_Load env;
     cfg_Armed := cfg_Armed env;
     cfg_Connection := fun cfg =>
       rmap (fun _ => {| Tokens := Ok tokens |}) (cfg_Connection env cfg);
     dump_Pretty := dump_Pretty env;
     config_Save := config_Save env |}.

(** A trace without its calls of [config.Save]. *)
Definition without_saves (t : Trace) : Trace :=
  filter (fun e => match e with CallSave _ => false | _ => true end) t.

(** *** Sample data *)

Definition dq : string := String "034" "".

(** The header [{"alg":"none"}] and the payload [{"sub":"x"}]. *)
Definition sample_header : list byte :=
  bytes_of_string ("{" ++ dq ++ "alg" ++ dq ++ ":" ++ dq ++ "none" ++ dq ++ "}")%string.
Definition sample_payload : list byte :=
  bytes_of_string ("{" ++ dq ++ "sub" ++ dq ++ ":" ++ dq ++ "x" ++ dq ++ "}")%string.
Definition sample_signature : list byte := bytes_of_string "sig".

(** The token of the end-to-end scenarios of the specification. *)
Definition sample_token : string := "eyJhbGciOiJub25lIn0.eyJzdWIiOiJ4In0.c2ln".

Definition sample_cfg : Config :=
  {| AccessToken := "old-access";
     RefreshToken := "old-refresh";
     Others := [("url", "https://api.openshift.com")] |}.

(** A session that is logged in and armed, a connection that answers the
    two tokens, a printer that writes the body as it is, a save that
    works. *)
Definition sample_env (accessToken refreshToken : string) : Env :=
  {| config_Load := Ok (Some sample_cfg);
     cfg_Armed := fun _ => Ok true;
     cfg_Connection := fun _ => Ok {| Tokens := Ok (accessToken, refreshToken) |};
     dump_Pretty := fun body => (string_of_bytes body, None);
     config_Save := fun _ => None |}.

Definition no_flags (refresh : bool) : Args :=
  {| header := false; payload := false; signature := false; refresh := refresh |}.

(** *** Definitions for the proofs *)

Import Base64.

(** The sextet of [val] at bit [k]. *)
Definition sextet (val k : Z) : Z := Z.land (Z.shiftr val k) 63.

(** The bytes of a quantum, when the encoding is not strict. *)
Definition quantum (dbuf : list Z) : list byte :=
  match quantum_bytes RawURLEncoding dbuf 0 with
  | Ok b => b
  | Err _ => []
  end.

(** No character of [s] is the separator. *)
Definition no_dot (s : string) : bool :=
  forallb (fun c => negb (Ascii.eqb c ".")) (list_ascii_of_string s).

(** Lines 132-144 alone: the three segments decoded in turn. *)
Definition decode_parts (h p s : string)
  : result RunError (list byte * list byte * list byte) :=
  match DecodeString RawURLEncoding h with
  | Err err => Err (ErrDecodeHeader err)
  | Ok headerBytes =>
      match DecodeString RawURLEncoding p with
      | Err err => Err (ErrDecodePayload err)
      | Ok payloadBytes =>
          match DecodeString RawURLEncoding s with
          | Err err => Err (ErrDecodeSignature err)
          | Ok signatureBytes => Ok (headerBytes, payloadBytes, signatureBytes)
          end
      end
  end.

(** Powers of two as literals, and goals on quotients and remainders. *)
Ltac pow2_literals :=
  change (2 ^ 18) with 262144 in *; change (2 ^ 16) with 65536 in *;
  change (2 ^ 12) with 4096 in *; change (2 ^ 8) with 256 in *;
  change (2 ^ 6) with 64 in *; change (2 ^ 0) with 1 in *.

Ltac divmod := pow2_literals; Z.div_mod_to_equations; lia.

(** *** What is observed of a run *)

(** The errors of the steps before printing: options, session, connection,
    tokens, parsing and decoding. *)
Definition before_print (e : RunError) : bool :=
  match e with
  | ErrMutuallyExclusive | ErrLoadConfig _ | ErrNotLoggedIn | ErrCheckExpired _
  | ErrTokensExpired | ErrCreateConnection _ | ErrGetToken _ | ErrParseToken _
  | ErrDecodeHeader _ | ErrDecodePayload _ | ErrDecodeSignature _ => true
  | _ => false
  end.

(** The kind of an event, without its arguments. *)
Inductive Kind : Type :=
| KLoad | KArmed | KConnection | KTokens | KPretty | KWrite | KSave.

Definition kind (e : Event) : Kind :=
  match e with
  | CallLoad => KLoad
  | CallArmed _ => KArmed
  | CallConnection _ => KConnection
  | CallTokens => KTokens
  | CallPretty _ => KPretty
  | Write _ => KWrite
  | CallSave _ => KSave
  end.

(** The events of a run that goes to its end, in order. *)
Definition schedule (args : Args) : list Kind :=
  [KLoad; KArmed; KConnection; KTokens]
  ++ (if header args || payload args || signature args then [KPretty; KWrite] else [KWrite])
  ++ [KSave].

(** How far a run got when it returns the error [e]: the events before
    the return. *)
Definition progress (args : Args) (e : RunError) : list Kind :=
  match e with
  | ErrMutuallyExclusive | PanicIndexOutOfRange => []
  | ErrLoadConfig _ | ErrNotLoggedIn => [KLoad]
  | ErrCheckExpired _ | ErrTokensExpired => [KLoad; KArmed]
  | ErrCreateConnection _ => [KLoad; KArmed; KConnection]
  | ErrGetToken _ | ErrParseToken _
  | ErrDecodeHeader _ | ErrDecodePayload _ | ErrDecodeSignature _ =>
      [KLoad; KArmed; KConnection; KTokens]
  | ErrDumpHeader _ | ErrDumpPayload _ | ErrDumpSignature _ =>
      [KLoad; KArmed; KConnection; KTokens; KPretty; KWrite]
  | ErrSaveConfig _ => schedule args
  end.

(** The bodies a trace handed to the pretty printer, in order. *)
Fixpoint pretty_bodies (t : Trace) : list (list byte) :=
  match t with
  | [] => []
  | CallPretty body :: rest => body :: pretty_bodies rest
  | _ :: rest => pretty_bodies rest
  end.

(** The environment [env] with another answer of [config.Save]. *)
Definition with_save (env : Env) (save : Config -> option error) : Env :=
  {| config_Load := config_Load env;
     cfg_Armed := cfg_Armed env;
     cfg_Connection := cfg_Connection env;
     dump_Pretty := dump_Pretty env;
     config_Save := save |}.

(** The characters of [s] that are the separator. *)
Definition dots (s : string) : nat :=
  List.length (filter (fun c => Ascii.eqb c ".") (list_ascii_of_string s)).

(** The characters of a segment that are of the alphabet. *)
Definition sextets (seg : string) : nat :=
  List.length (filter in_alphabet (list_ascii_of_string seg)).

(** * Theorems *)

(** ** Bytes and bits *)

Lemma byte_of_Z_of_byte (b : byte) : byte_of_Z (Z_of_byte b) = b.
Proof. destruct b; reflexivity. Qed.

Lemma Z_of_byte_range (b : byte) : 0 <= Z_of_byte b < 256.
Proof. destruct b; cbv; split; congruence. Qed.

Lemma byte_of_Z_mod (z : Z) : byte_of_Z (z mod 256) = byte_of_Z z.
Proof. unfold byte_of_Z. now rewrite Z.mod_mod. Qed.

(** A number shifted left and a smaller one below it have no bit in
    common, so that their disjunction is their sum. *)
Lemma lor_shiftl_add (a b n : Z) :
  0 <= n -> 0 <= b < 2 ^ n -> Z.lor (Z.shiftl a n) b = a * 2 ^ n + b.
Proof.
  intros Hn Hb.
  rewrite <- Z.shiftl_mul_pow2 by assumption.
  rewrite <- Z.add_lor_land.
  enough (Hland : Z.land (Z.shiftl a n) b = 0) by (rewrite Hland; lia).
  apply Z.bits_inj'. intros m Hm.
  rewrite Z.land_spec, Z.bits_0.
  destruct (Z.ltb_spec m n) as [Hlt | Hge].
  - rewrite Z.shiftl_spec_low by assumption. reflexivity.
  - destruct (Z.eq_dec b 0) as [-> | Hb0].
    + rewrite Z.bits_0. apply andb_false_r.
    + rewrite (Z.bits_above_log2 b m); [apply andb_false_r | lia |].
      apply Z.log2_lt_pow2; [lia |].
      apply Z.lt_le_trans with (2 ^ n); [lia |].
      apply Z.pow_le_mono_r; lia.
Qed.

Lemma land_63 (x : Z) : Z.land x 63 = x mod 64.
Proof. change 63 with (Z.ones 6). now rewrite Z.land_ones by lia. Qed.

Lemma lor_add_low (x b n : Z) :
  0 <= n -> x mod 2 ^ n = 0 -> 0 <= b < 2 ^ n -> Z.lor x b = x + b.
Proof.
  intros Hn Hx Hb.
  assert (Hpos : 0 < 2 ^ n) by (apply Z.pow_pos_nonneg; lia).
  assert (Hdiv : x = (x / 2 ^ n) * 2 ^ n).
  { pose proof (Z.div_mod x (2 ^ n)). lia. }
  rewrite Hdiv at 1. rewrite <- Z.shiftl_mul_pow2 by assumption.
  rewrite lor_shiftl_add by assumption. lia.
Qed.

(** The four sextets of three bytes, and the three bytes of four
    sextets. *)
Lemma sextets_of_bytes (v0 v1 v2 : Z) :
  0 <= v0 < 256 -> 0 <= v1 < 256 -> 0 <= v2 < 256 ->
  Z.lor (Z.lor (Z.shiftl v0 16) (Z.shiftl v1 8)) v2 = v0 * 65536 + v1 * 256 + v2.
Proof.
  intros H0 H1 H2.
  rewrite !Z.shiftl_mul_pow2 by lia.
  rewrite (lor_add_low (v0 * 2 ^ 16) (v1 * 2 ^ 8) 16); [| lia | divmod | divmod].
  rewrite (lor_add_low _ v2 8); [divmod | lia | divmod | divmod].
Qed.

Lemma bytes_of_sextets (s0 s1 s2 s3 : Z) :
  0 <= s0 < 64 -> 0 <= s1 < 64 -> 0 <= s2 < 64 -> 0 <= s3 < 64 ->
  Z.lor (Z.lor (Z.lor (Z.shiftl s0 18) (Z.shiftl s1 12)) (Z.shiftl s2 6)) s3
  = s0 * 262144 + s1 * 4096 + s2 * 64 + s3.
Proof.
  intros H0 H1 H2 H3.
  rewrite !Z.shiftl_mul_pow2 by lia.
  rewrite (lor_add_low (s0 * 2 ^ 18) (s1 * 2 ^ 12) 18); [| lia | divmod | divmod].
  rewrite (lor_add_low _ (s2 * 2 ^ 6) 12); [| lia | divmod | divmod].
  rewrite (lor_add_low _ s3 6); [divmod | lia | divmod | divmod].
Qed.

Lemma sextet_div (val k : Z) : 0 <= k -> sextet val k = (val / 2 ^ k) mod 64.
Proof. intros Hk. unfold sextet. now rewrite land_63, Z.shiftr_div_pow2. Qed.

Lemma sextet_range (val k : Z) : 0 <= k -> 0 <= sextet val k < 64.
Proof. intros Hk. rewrite sextet_div by assumption. apply Z.mod_pos_bound. lia. Qed.

(** Three bytes, cut in four sextets and put together again. *)
Lemma quantum_roundtrip (v0 v1 v2 : Z) :
  0 <= v0 < 256 -> 0 <= v1 < 256 -> 0 <= v2 < 256 ->
  let val := v0 * 65536 + v1 * 256 + v2 in
  let val' := sextet val 18 * 262144 + sextet val 12 * 4096 + sextet val 6 * 64
              + sextet val 0 in
  (Z.shiftr val' 16) mod 256 = v0
  /\ (Z.shiftr val' 8) mod 256 = v1
  /\ (Z.shiftr val' 0) mod 256 = v2.
Proof.
  intros H0 H1 H2 val val'.
  assert (Hval : val' = val).
  { unfold val'. rewrite !sextet_div by lia. divmod. }
  rewrite Hval. rewrite !Z.shiftr_div_pow2 by lia.
  unfold val. divmod.
Qed.

(** ** The alphabet *)

Import Base64.

Lemma decodeMap_URL (c : ascii) : decodeMap URLEncoding c = decodeMap RawURLEncoding c.
Proof. reflexivity. Qed.

(** Decoding a character of the alphabet gives its index back. *)
Lemma decodeMap_encodeAt (i : Z) :
  0 <= i < 64 -> decodeMap RawURLEncoding (encodeAt RawURLEncoding i) = Some i.
Proof.
  intros Hi.
  assert (H : forallb (fun n => match decodeMap RawURLEncoding
                                        (encodeAt RawURLEncoding (Z.of_nat n)) with
                                | Some j => j =? Z.of_nat n
                                | None => false
                                end) (seq 0 64) = true) by (vm_compute; reflexivity).
  rewrite forallb_forall in H. specialize (H (Z.to_nat i)).
  rewrite Z2Nat.id in H by lia.
  destruct (decodeMap RawURLEncoding (encodeAt RawURLEncoding i)) as [j |].
  - f_equal. apply Z.eqb_eq. apply H. apply in_seq. lia.
  - discriminate H. apply in_seq. lia.
Qed.

Lemma in_alphabet_encodeAt (i : Z) :
  0 <= i < 64 -> in_alphabet (encodeAt RawURLEncoding i) = true.
Proof. intros Hi. unfold in_alphabet. now rewrite decodeMap_encodeAt. Qed.

Lemma in_alphabet_decodeMap (c : ascii) :
  in_alphabet c = true -> exists out, decodeMap RawURLEncoding c = Some out.
Proof.
  unfold in_alphabet. destruct (decodeMap RawURLEncoding c) as [out |]; [eauto | discriminate].
Qed.

Lemma not_in_alphabet_decodeMap (c : ascii) :
  in_alphabet c = false -> decodeMap RawURLEncoding c = None.
Proof.
  unfold in_alphabet. destruct (decodeMap RawURLEncoding c); [discriminate | reflexivity].
Qed.

(** ** One quantum *)

Lemma quantum_bytes_nonstrict (enc : Encoding) (dbuf : list Z) (si : Z) :
  strict enc = false -> quantum_bytes enc dbuf si = Ok (quantum dbuf).
Proof.
  intros Hs. unfold quantum, quantum_bytes. rewrite Hs.
  destruct (List.length dbuf) as [| [| [| [| [| n]]]]]; reflexivity.
Qed.

(** One more sextet read. *)
Lemma decode_from_sextet (enc : Encoding) (c : ascii) (rest : list ascii) (si : Z)
      (dbuf : list Z) (out : Z) :
  decodeMap enc c = Some out ->
  decode_from enc (c :: rest) si dbuf =
    if (List.length (dbuf ++ [out]) =? 4)%nat
    then rbind (quantum_bytes enc (dbuf ++ [out]) (si + 1))
               (fun b => rmap (app b) (decode_from enc rest (si + 1) []))
    else decode_from enc rest (si + 1) (dbuf ++ [out]).
Proof. intros H. cbn [decode_from]. rewrite H. reflexivity. Qed.

(** A new line skipped. *)
Lemma decode_from_newline (enc : Encoding) (c : ascii) (rest : list ascii) (si : Z)
      (dbuf : list Z) :
  decodeMap enc c = None -> is_newline c = true ->
  decode_from enc (c :: rest) si dbuf = decode_from enc rest (si + 1) dbuf.
Proof. intros H Hn. cbn [decode_from]. rewrite H, Hn. reflexivity. Qed.

Lemma quantum_4 (v0 v1 v2 : Z) :
  0 <= v0 < 256 -> 0 <= v1 < 256 -> 0 <= v2 < 256 ->
  let val := v0 * 65536 + v1 * 256 + v2 in
  quantum [sextet val 18; sextet val 12; sextet val 6; sextet val 0]
  = [byte_of_Z v0; byte_of_Z v1; byte_of_Z v2].
Proof.
  intros H0 H1 H2 val.
  unfold quantum, quantum_bytes. cbn [List.length nth].
  rewrite bytes_of_sextets by (apply sextet_range; lia).
  destruct (quantum_roundtrip v0 v1 v2 H0 H1 H2) as (E0 & E1 & E2).
  fold val in E0, E1, E2.
  rewrite <- (byte_of_Z_mod (Z.shiftr _ 16)), <- (byte_of_Z_mod (Z.shiftr _ 8)),
          <- (byte_of_Z_mod (Z.shiftr _ 0)).
  now rewrite E0, E1, E2.
Qed.

Lemma quantum_3 (v0 v1 : Z) :
  0 <= v0 < 256 -> 0 <= v1 < 256 ->
  let val := v0 * 65536 + v1 * 256 in
  quantum [sextet val 18; sextet val 12; sextet val 6] = [byte_of_Z v0; byte_of_Z v1].
Proof.
  intros H0 H1 val.
  unfold quantum, quantum_bytes. cbn [List.length nth strict RawURLEncoding andb].
  rewrite bytes_of_sextets by (try apply sextet_range; lia).
  rewrite <- (byte_of_Z_mod (Z.shiftr _ 16)), <- (byte_of_Z_mod (Z.shiftr _ 8)).
  rewrite !sextet_div, !Z.shiftr_div_pow2 by lia.
  do 2 f_equal; [| f_equal]; f_equal; unfold val; divmod.
Qed.

Lemma quantum_2 (v0 : Z) :
  0 <= v0 < 256 ->
  let val := v0 * 65536 in
  quantum [sextet val 18; sextet val 12] = [byte_of_Z v0].
Proof.
  intros H0 val.
  unfold quantum, quantum_bytes. cbn [List.length nth strict RawURLEncoding andb].
  rewrite bytes_of_sextets by (try apply sextet_range; lia).
  rewrite <- (byte_of_Z_mod (Z.shiftr _ 16)).
  rewrite !sextet_div, !Z.shiftr_div_pow2 by lia.
  do 2 f_equal. unfold val. divmod.
Qed.

(** ** Decoding *)

(** Valid characters: both decoders succeed, the padded one on the input
    with its padding put back, and they agree. *)
Lemma decode_from_valid (l : list ascii) :
  forallb in_alphabet l = true ->
  forall (dbuf : list Z) (si : Z),
    (List.length dbuf < 4)%nat ->
    ((List.length dbuf + List.length l) mod 4 <> 1)%nat ->
    exists bs,
      decode_from RawURLEncoding l si dbuf = Ok bs
      /\ decode_from URLEncoding
           (l ++ repeat "="%char ((4 - (List.length dbuf + List.length l) mod 4) mod 4))
           si dbuf = Ok bs.
Proof.
  induction l as [| c l IH]; intros Hall dbuf si Hlen Hmod.
  - destruct dbuf as [| a [| b [| d [| e dbuf]]]]; cbn in Hlen, Hmod; try lia.
    + eexists. split; reflexivity.
    + eexists. split; reflexivity.
    + eexists. split; reflexivity.
  - cbn [forallb] in Hall. apply andb_true_iff in Hall as [Hc Hl].
    destruct (in_alphabet_decodeMap c Hc) as [out Hout].
    cbn [app]. rewrite (decode_from_sextet RawURLEncoding c _ si dbuf out Hout).
    rewrite (decode_from_sextet URLEncoding c _ si dbuf out Hout).
    rewrite !quantum_bytes_nonstrict by reflexivity. cbn [rbind].
    rewrite length_app. cbn [List.length] in *.
    destruct (Nat.eqb_spec (List.length dbuf + 1) 4) as [H4 | H4].
    + destruct (IH Hl [] (si + 1)) as (bs & Hraw & Hurl); [cbn; lia | |].
      * cbn [List.length]. intros E. apply Hmod.
        replace (List.length dbuf + S (List.length l))%nat
          with (List.length l + 1 * 4)%nat by lia.
        rewrite Nat.Div0.mod_add. exact E.
      * exists (quantum (dbuf ++ [out]) ++ bs). rewrite Hraw.
        replace ((4 - (List.length dbuf + S (List.length l)) mod 4) mod 4)%nat
          with ((4 - (List.length (@nil Z) + List.length l) mod 4) mod 4)%nat.
        -- rewrite Hurl. split; reflexivity.
        -- cbn [List.length].
           replace (List.length dbuf + S (List.length l))%nat
             with (List.length l + 1 * 4)%nat by lia.
           now rewrite Nat.Div0.mod_add.
    + destruct (IH Hl (dbuf ++ [out]) (si + 1)) as (bs & Hraw & Hurl).
      * rewrite length_app. cbn. lia.
      * rewrite length_app. cbn [List.length].
        now replace (List.length dbuf + 1 + List.length l)%nat
          with (List.length dbuf + S (List.length l))%nat by lia.
      * exists bs. rewrite Hraw. split; [reflexivity |].
        rewrite length_app in Hurl. cbn [List.length] in Hurl.
        now replace (List.length dbuf + 1 + List.length l)%nat
          with (List.length dbuf + S (List.length l))%nat in Hurl by lia.
Qed.

(** A character that is neither of the alphabet nor a new line: the
    decoder without padding fails. *)
Lemma decode_from_offending (l : list ascii) :
  existsb (fun c => negb (in_alphabet c) && negb (is_newline c)) l = true ->
  forall (dbuf : list Z) (si : Z),
    exists e, decode_from RawURLEncoding l si dbuf = Err e.
Proof.
  induction l as [| c l IH]; intros Hex dbuf si; [discriminate |].
  cbn [existsb] in Hex.
  destruct (in_alphabet c) eqn:Hc.
  - cbn [negb andb orb] in Hex.
    destruct (in_alphabet_decodeMap c Hc) as [out Hout].
    rewrite (decode_from_sextet RawURLEncoding c _ si dbuf out Hout).
    rewrite !quantum_bytes_nonstrict by reflexivity. cbn [rbind].
    destruct (List.length (dbuf ++ [out]) =? 4)%nat.
    + destruct (IH Hex [] (si + 1)) as [e He]. rewrite He. eexists. reflexivity.
    + apply IH. exact Hex.
  - pose proof (not_in_alphabet_decodeMap c Hc) as Hnone.
    destruct (is_newline c) eqn:Hn.
    + cbn [negb andb orb] in Hex.
      rewrite (decode_from_newline RawURLEncoding c _ si dbuf Hnone Hn).
      apply IH. exact Hex.
    + cbn [decode_from]. rewrite Hnone, Hn. cbn. eexists. reflexivity.
Qed.

(** Characters of the alphabet and new lines only: when the padded
    decoder accepts the input followed by some padding, the decoder
    without padding accepts the input. *)
Lemma decode_from_padded_ok (l : list ascii) :
  forallb (fun c => in_alphabet c || is_newline c) l = true ->
  forall (m : nat) (dbuf : list Z) (si si' : Z),
    is_ok (decode_from URLEncoding (l ++ repeat "="%char m) si dbuf) = true ->
    is_ok (decode_from RawURLEncoding l si' dbuf) = true.
Proof.
  induction l as [| c l IH]; intros Hall m dbuf si si' Hurl.
  - cbn [app] in Hurl. cbn [decode_from].
    destruct dbuf as [| a [| b dbuf]].
    + reflexivity.
    + destruct m; cbn in Hurl; discriminate.
    + cbn [List.length padChar RawURLEncoding].
      now rewrite quantum_bytes_nonstrict.
  - cbn [forallb] in Hall. apply andb_true_iff in Hall as [Hc Hl].
    cbn [app] in Hurl.
    destruct (in_alphabet c) eqn:Halpha.
    + destruct (in_alphabet_decodeMap c Halpha) as [out Hout].
      rewrite (decode_from_sextet URLEncoding c _ si dbuf out Hout) in Hurl.
      rewrite (decode_from_sextet RawURLEncoding c _ si' dbuf out Hout).
      rewrite !quantum_bytes_nonstrict in * by reflexivity. cbn [rbind] in *.
      destruct (List.length (dbuf ++ [out]) =? 4)%nat.
      * specialize (IH Hl m [] (si + 1) (si' + 1)).
        destruct (decode_from URLEncoding (l ++ repeat "="%char m) (si + 1) []);
          [| discriminate].
        destruct (decode_from RawURLEncoding l (si' + 1) []); [reflexivity |].
        now specialize (IH eq_refl).
      * eapply IH; eassumption.
    + cbn [orb] in Hc.
      pose proof (not_in_alphabet_decodeMap c Halpha) as Hnone.
      rewrite (decode_from_newline URLEncoding c _ si dbuf Hnone Hc) in Hurl.
      rewrite (decode_from_newline RawURLEncoding c _ si' dbuf Hnone Hc).
      eapply IH; eassumption.
Qed.

(** ** Strings and their characters *)

Lemma list_ascii_of_string_app (a b : string) :
  list_ascii_of_string (a ++ b) = list_ascii_of_string a ++ list_ascii_of_string b.
Proof. induction a as [| c a IH]; cbn; [reflexivity | now rewrite IH]. Qed.

Lemma list_ascii_of_string_length (s : string) :
  List.length (list_ascii_of_string s) = String.length s.
Proof. induction s as [| c s IH]; cbn; [reflexivity | now rewrite IH]. Qed.

Lemma list_ascii_of_Repeat (c : ascii) (n : nat) :
  list_ascii_of_string (Strings.Repeat (String c "") n) = repeat c n.
Proof. induction n as [| n IH]; cbn; [reflexivity | now rewrite IH]. Qed.

(** ** Splitting *)

Lemma Split_no_dot (a : string) : no_dot a = true -> Strings.Split a "." = [a].
Proof.
  unfold no_dot. induction a as [| c a IH]; cbn; [reflexivity |].
  intros H. apply andb_true_iff in H as [Hc Ha].
  apply negb_true_iff in Hc. rewrite Hc, (IH Ha). reflexivity.
Qed.

Lemma Split_app_dot (a rest : string) :
  no_dot a = true ->
  Strings.Split (a ++ String "." rest) "." = a :: Strings.Split rest ".".
Proof.
  unfold no_dot. induction a as [| c a IH]; cbn; [reflexivity |].
  intros H. apply andb_true_iff in H as [Hc Ha].
  apply negb_true_iff in Hc. rewrite Hc, (IH Ha). reflexivity.
Qed.

Lemma Split_join3 (h p s : string) :
  no_dot h = true -> no_dot p = true -> no_dot s = true ->
  Strings.Split (join3 h p s) "." = [h; p; s].
Proof.
  intros Hh Hp Hs. unfold join3. cbn [append].
  now rewrite (Split_app_dot h _ Hh), (Split_app_dot p _ Hp), (Split_no_dot s Hs).
Qed.

Lemma in_alphabet_no_dot (s : string) :
  forallb in_alphabet (list_ascii_of_string s) = true -> no_dot s = true.
Proof.
  unfold no_dot. intros H. rewrite forallb_forall in *. intros c Hc.
  specialize (H c Hc). apply negb_true_iff.
  destruct (Ascii.eqb_spec c "."); [subst c; discriminate H | reflexivity].
Qed.

(** ** Segments *)

(** A valid segment: the decoder of the command and the decoder of the
    JWT parser both succeed, with the same bytes. *)
Lemma valid_segment_decodes (seg : string) :
  base64url_nopad seg = true ->
  exists bs,
    DecodeString RawURLEncoding seg = Ok bs /\ Jwt.DecodeSegment seg = Ok bs.
Proof.
  unfold base64url_nopad. intros H. apply andb_true_iff in H as [Hall Hlen].
  apply negb_true_iff, Nat.eqb_neq in Hlen.
  destruct (decode_from_valid (list_ascii_of_string seg) Hall [] 0) as (bs & Hraw & Hurl).
  - cbn. lia.
  - cbn [List.length Nat.add]. now rewrite list_ascii_of_string_length.
  - exists bs. split; [exact Hraw |].
    unfold Jwt.DecodeSegment, DecodeString.
    cbn [List.length Nat.add] in Hurl. rewrite list_ascii_of_string_length in Hurl.
    pose proof (Nat.mod_upper_bound (String.length seg) 4 ltac:(lia)) as Hb.
    destruct (Nat.ltb_spec 0 (String.length seg mod 4)) as [Hpos | Hzero].
    + rewrite list_ascii_of_string_app, (list_ascii_of_Repeat "="%char).
      rewrite Nat.mod_small in Hurl by lia. exact Hurl.
    + replace (String.length seg mod 4)%nat with 0%nat in Hurl by lia.
      cbn in Hurl. now rewrite app_nil_r in Hurl.
Qed.

(** An offending character: the decoder of the command fails. *)
Lemma offending_segment_fails (seg : string) :
  offending seg = true -> exists e, DecodeString RawURLEncoding seg = Err e.
Proof. intros H. apply decode_from_offending. exact H. Qed.

(** No offending character: a segment the JWT parser decodes, the command
    decodes too. *)
Lemma accepted_segment_decodes (seg : string) (bs : list byte) :
  offending seg = false ->
  Jwt.DecodeSegment seg = Ok bs ->
  exists bs', DecodeString RawURLEncoding seg = Ok bs'.
Proof.
  unfold offending. intros Hoff Hjwt.
  assert (Hall : forallb (fun c => in_alphabet c || is_newline c)
                         (list_ascii_of_string seg) = true).
  { rewrite forallb_forall. intros c Hc.
    destruct (in_alphabet c || is_newline c) eqn:E; [reflexivity |].
    apply orb_false_iff in E as [E1 E2].
    assert (Hex : existsb (fun c => negb (in_alphabet c) && negb (is_newline c))
                          (list_ascii_of_string seg) = true).
    { apply existsb_exists. exists c. split; [exact Hc |]. now rewrite E1, E2. }
    congruence. }
  unfold Jwt.DecodeSegment, DecodeString in Hjwt.
  assert (Hok : is_ok (decode_from RawURLEncoding (list_ascii_of_string seg) 0 []) = true).
  { destruct (0 <? String.length seg mod 4)%nat.
    - rewrite list_ascii_of_string_app, (list_ascii_of_Repeat "="%char) in Hjwt.
      eapply (decode_from_padded_ok _ Hall). rewrite Hjwt. reflexivity.
    - eapply (decode_from_padded_ok _ Hall 0). cbn [repeat]. rewrite app_nil_r, Hjwt.
      reflexivity. }
  unfold DecodeString.
  destruct (decode_from RawURLEncoding (list_ascii_of_string seg) 0 []) as [bs' |];
    [eauto | discriminate].
Qed.

(** ** Encoding, then decoding *)

(** Induction on a list, three elements at a time. *)
Lemma list_ind3 {A : Type} (P : list A -> Prop) :
  P [] -> (forall a, P [a]) -> (forall a b, P [a; b]) ->
  (forall a b c l, P l -> P (a :: b :: c :: l)) ->
  forall l, P l.
Proof.
  intros H0 H1 H2 H3.
  fix IH 1. intros [| a [| b [| c l]]].
  - exact H0.
  - apply H1.
  - apply H2.
  - apply H3. apply IH.
Qed.

Lemma encode_from_3 (enc : Encoding) (s0 s1 s2 : byte) (rest : list byte) :
  encode_from enc (s0 :: s1 :: s2 :: rest) =
    let val := Z.lor (Z.lor (Z.shiftl (Z_of_byte s0) 16) (Z.shiftl (Z_of_byte s1) 8))
                     (Z_of_byte s2) in
    encodeAt enc (sextet val 18) :: encodeAt enc (sextet val 12)
    :: encodeAt enc (sextet val 6) :: encodeAt enc (sextet val 0)
    :: encode_from enc rest.
Proof. reflexivity. Qed.

(** The reference encoder writes characters of the alphabet, never one
    more than a multiple of four, and the decoder of the command reads
    the bytes back. *)
Lemma encode_from_decodes (bs : list byte) :
  forallb in_alphabet (encode_from RawURLEncoding bs) = true
  /\ (List.length (encode_from RawURLEncoding bs) mod 4 <> 1)%nat
  /\ forall si, decode_from RawURLEncoding (encode_from RawURLEncoding bs) si [] = Ok bs.
Proof.
  induction bs as [| a | a b | a b c rest IH] using list_ind3.
  - repeat split; cbn; lia || reflexivity.
  - pose proof (Z_of_byte_range a) as Ha.
    cbn [encode_from padChar RawURLEncoding app].
    rewrite Z.shiftl_mul_pow2 by lia. pow2_literals.
    fold (sextet (Z_of_byte a * 65536) 18). fold (sextet (Z_of_byte a * 65536) 12).
    split; [| split].
    + cbn [forallb]. now rewrite !in_alphabet_encodeAt by (apply sextet_range; lia).
    + cbn. lia.
    + intros si.
      rewrite (decode_from_sextet _ _ _ _ _ _ (decodeMap_encodeAt _ (sextet_range _ 18 ltac:(lia)))).
      cbn [app List.length Nat.eqb].
      rewrite (decode_from_sextet _ _ _ _ _ _ (decodeMap_encodeAt _ (sextet_range _ 12 ltac:(lia)))).
      cbn [app List.length Nat.eqb decode_from padChar RawURLEncoding].
      rewrite quantum_bytes_nonstrict by reflexivity.
      rewrite (quantum_2 (Z_of_byte a) Ha). now rewrite byte_of_Z_of_byte.
  - pose proof (Z_of_byte_range a) as Ha. pose proof (Z_of_byte_range b) as Hb.
    cbn [encode_from padChar RawURLEncoding app].
    pose proof (sextets_of_bytes (Z_of_byte a) (Z_of_byte b) 0 Ha Hb ltac:(lia)) as E.
    rewrite Z.lor_0_r, Z.add_0_r in E. rewrite E. clear E.
    set (val := Z_of_byte a * 65536 + Z_of_byte b * 256).
    fold (sextet val 18). fold (sextet val 12). fold (sextet val 6).
    split; [| split].
    + cbn [forallb]. now rewrite !in_alphabet_encodeAt by (apply sextet_range; lia).
    + cbn. lia.
    + intros si.
      rewrite (decode_from_sextet _ _ _ _ _ _ (decodeMap_encodeAt _ (sextet_range _ 18 ltac:(lia)))).
      cbn [app List.length Nat.eqb].
      rewrite (decode_from_sextet _ _ _ _ _ _ (decodeMap_encodeAt _ (sextet_range _ 12 ltac:(lia)))).
      cbn [app List.length Nat.eqb].
      rewrite (decode_from_sextet _ _ _ _ _ _ (decodeMap_encodeAt _ (sextet_range _ 6 ltac:(lia)))).
      cbn [app List.length Nat.eqb decode_from padChar RawURLEncoding].
      rewrite quantum_bytes_nonstrict by reflexivity.
      unfold val. rewrite (quantum_3 (Z_of_byte a) (Z_of_byte b) Ha Hb).
      now rewrite !byte_of_Z_of_byte.
  - destruct IH as (IHall & IHlen & IHdec).
    pose proof (Z_of_byte_range a) as Ha. pose proof (Z_of_byte_range b) as Hb.
    pose proof (Z_of_byte_range c) as Hc.
    rewrite encode_from_3. cbv zeta.
    rewrite sextets_of_bytes by assumption.
    set (val := Z_of_byte a * 65536 + Z_of_byte b * 256 + Z_of_byte c).
    split; [| split].
    + cbn [forallb]. now rewrite !in_alphabet_encodeAt, IHall by (apply sextet_range; lia).
    + cbn [List.length].
      replace (S (S (S (S (List.length (encode_from RawURLEncoding rest))))))
        with (List.length (encode_from RawURLEncoding rest) + 1 * 4)%nat by lia.
      now rewrite Nat.Div0.mod_add.
    + intros si.
      rewrite (decode_from_sextet _ _ _ _ _ _ (decodeMap_encodeAt _ (sextet_range _ 18 ltac:(lia)))).
      cbn [app List.length Nat.eqb].
      rewrite (decode_from_sextet _ _ _ _ _ _ (decodeMap_encodeAt _ (sextet_range _ 12 ltac:(lia)))).
      cbn [app List.length Nat.eqb].
      rewrite (decode_from_sextet _ _ _ _ _ _ (decodeMap_encodeAt _ (sextet_range _ 6 ltac:(lia)))).
      cbn [app List.length Nat.eqb].
      rewrite (decode_from_sextet _ _ _ _ _ _ (decodeMap_encodeAt _ (sextet_range _ 0 ltac:(lia)))).
      cbn [app List.length Nat.eqb].
      rewrite quantum_bytes_nonstrict by reflexivity. cbn [rbind].
      unfold val. rewrite (quantum_4 _ _ _ Ha Hb Hc), IHdec.
      cbn. now rewrite !byte_of_Z_of_byte.
Qed.

(** An encoded segment is a valid segment, and decodes to its bytes. *)
Lemma encode_segment_valid (bs : list byte) :
  base64url_nopad (encode_segment bs) = true
  /\ DecodeString RawURLEncoding (encode_segment bs) = Ok bs.
Proof.
  destruct (encode_from_decodes bs) as (Hall & Hlen & Hdec).
  unfold base64url_nopad, encode_segment, EncodeToString, DecodeString.
  rewrite <- list_ascii_of_string_length.
  rewrite !list_ascii_of_string_of_list_ascii.
  split; [| apply Hdec].
  rewrite Hall. apply Nat.eqb_neq in Hlen. now rewrite Hlen.
Qed.

(** ** The fuel of the JSON parser *)

Lemma skip_space_length (src : list byte) :
  (List.length (Json.skip_space src) <= List.length src)%nat.
Proof.
  induction src as [| c src IH]; cbn; [lia |].
  destruct (Json.isSpace c); cbn; lia.
Qed.

Lemma expect_length (c : byte) (src rest : list byte) :
  Json.expect c src = Some rest -> (List.length rest < List.length src)%nat.
Proof.
  unfold Json.expect. pose proof (skip_space_length src) as H.
  destruct (Json.skip_space src) as [| c' r]; [discriminate |].
  destruct (Byte.eqb c' c); [| discriminate].
  intros [= <-]. cbn in H. lia.
Qed.

Lemma span_digits_length (src ds r : list byte) :
  Json.span_digits src = (ds, r) ->
  List.length src = (List.length ds + List.length r)%nat.
Proof.
  revert ds r. induction src as [| c src IH]; cbn; intros ds r.
  - intros [= <- <-]. reflexivity.
  - destruct (Json.is_digit c).
    + destruct (Json.span_digits src) as [ds' r'] eqn:E.
      intros [= <- <-]. cbn. now rewrite (IH ds' r' eq_refl).
    + intros [= <- <-]. reflexivity.
Qed.

Lemma strip_prefix_length (lit src r : list byte) :
  Json.strip_prefix lit src = Some r -> (List.length r <= List.length src)%nat.
Proof.
  revert src. induction lit as [| l lit IH]; intros [| c src]; cbn;
    try discriminate; try (intros [= <-]; cbn; lia).
  destruct (Byte.eqb l c); [| discriminate].
  intros H. apply IH in H. lia.
Qed.

(** A string read is at least its closing quote. *)
Lemma scan_string_length (n : nat) :
  forall src raw rest,
    (List.length src <= n)%nat ->
    Json.scan_string src = Ok (raw, rest) ->
    (List.length rest < List.length src)%nat.
Proof.
  induction n as [| n IH]; intros src raw rest Hn.
  - destruct src; [discriminate | cbn in Hn; lia].
  - destruct src as [| c src]; [discriminate |].
    cbn [Json.scan_string]. cbn [List.length] in *.
    destruct (Byte.eqb c Json.quote); [intros [= <- <-]; lia |].
    destruct (Byte.eqb c Json.backslash).
    + destruct src as [| e rest1]; [discriminate |].
      destruct (Json.is_escape_letter e).
      * destruct (Json.scan_string rest1) as [[raw' r'] |] eqn:E; [| discriminate].
        cbn. intros [= <- <-].
        apply IH in E; cbn [List.length] in *; lia.
      * destruct (Byte.eqb e "u"%byte); [| discriminate].
        destruct rest1 as [| h1 [| h2 [| h3 [| h4 rest2]]]]; try discriminate.
        destruct (Json.is_hex h1 && Json.is_hex h2 && Json.is_hex h3 && Json.is_hex h4);
          [| discriminate].
        destruct (Json.scan_string rest2) as [[raw' r'] |] eqn:E; [| discriminate].
        cbn. intros [= <- <-].
        apply IH in E; cbn [List.length] in *; lia.
    + destruct (Z_of_byte c <? 32); [discriminate |].
      destruct (Json.scan_string src) as [[raw' r'] |] eqn:E; [| discriminate].
      cbn. intros [= <- <-].
      apply IH in E; lia.
Qed.

(** A number read is at least one digit. *)
Lemma scan_number_length (src lit rest : list byte) :
  Json.scan_number src = Ok (lit, rest) ->
  (List.length rest < List.length src)%nat.
Proof.
  unfold Json.scan_number.
  set (signed := match src with
                 | "-"%byte :: r => (["-"%byte], r)
                 | _ => ([], src)
                 end).
  assert (Hs1 : (List.length (snd signed) <= List.length src)%nat).
  { subst signed. destruct src as [| c r]; [cbn; lia |].
    destruct c; cbn; lia. }
  destruct signed as [sign s1]. cbn [snd] in Hs1.
  destruct (Json.span_digits s1) as [digits s2] eqn:Edig.
  apply span_digits_length in Edig.
  destruct digits as [| d ds]; [discriminate |]. cbn [List.length] in Edig.
  set (cut := if Byte.eqb d "0" then ([d], ds ++ s2) else (d :: ds, s2)).
  assert (Hs2 : (List.length (snd cut) < List.length s1)%nat).
  { subst cut. destruct (Byte.eqb d "0"); cbn [snd]; rewrite ?length_app; lia. }
  destruct cut as [int s2']. cbn [snd] in Hs2.
  set (frac := match s2' with
               | "."%byte :: r =>
                   let '(fs, s3) := Json.span_digits r in
                   match fs with
                   | [] => Err Json.SyntaxError
                   | _ => Ok ("."%byte :: fs, s3)
                   end
               | _ => Ok ([], s2')
               end).
  assert (Hfrac : forall fr s3, frac = Ok (fr, s3) ->
                                (List.length s3 <= List.length s2')%nat).
  { subst frac. intros fr s3. destruct s2' as [| c r]; [intros [= <- <-]; lia |].
    destruct c; try (intros [= <- <-]; lia).
    destruct (Json.span_digits r) as [fs s3'] eqn:E.
    apply span_digits_length in E.
    destruct fs; [discriminate |]. intros [= <- <-]. cbn [List.length] in *. lia. }
  destruct frac as [[fr s3] |]; [| discriminate].
  specialize (Hfrac fr s3 eq_refl). cbn [rbind].
  set (exp := match s3 with
              | e :: r =>
                  if Byte.eqb e "e" || Byte.eqb e "E"
                  then
                    let '(sg, r1) :=
                      match r with
                      | c :: r' =>
                          if Byte.eqb c "+" || Byte.eqb c "-" then ([c], r') else ([], r)
                      | [] => ([], r)
                      end in
                    let '(es, s4) := Json.span_digits r1 in
                    match es with
                    | [] => Err Json.SyntaxError
                    | _ => Ok (e :: sg ++ es, s4)
                    end
                  else Ok ([], s3)
              | [] => Ok ([], s3)
              end).
  assert (Hexp : forall ex s4, exp = Ok (ex, s4) ->
                               (List.length s4 <= List.length s3)%nat).
  { subst exp. intros ex s4. destruct s3 as [| e r]; [intros [= <- <-]; lia |].
    destruct (Byte.eqb e "e" || Byte.eqb e "E"); [| intros [= <- <-]; lia].
    set (sgn := match r with
                | c :: r' =>
                    if Byte.eqb c "+" || Byte.eqb c "-" then ([c], r') else ([], r)
                | [] => ([], r)
                end).
    assert (Hr1 : (List.length (snd sgn) <= List.length r)%nat).
    { subst sgn. destruct r as [| c r']; [cbn; lia |].
      destruct (Byte.eqb c "+" || Byte.eqb c "-"); cbn; lia. }
    destruct sgn as [sg r1]. cbn [snd] in Hr1.
    destruct (Json.span_digits r1) as [es s4'] eqn:E.
    apply span_digits_length in E.
    destruct es; [discriminate |]. intros [= <- <-]. cbn [List.length] in *. lia. }
  destruct exp as [[ex s4] |]; [| discriminate].
  specialize (Hexp ex s4 eq_refl). cbn [rbind].
  intros [= <- <-]. lia.
Qed.

Lemma parse_scalar_length (c : byte) (src : list byte) (v : Json.value) (rest : list byte) :
  Json.parse_scalar c src = Ok (v, rest) -> (List.length rest <= List.length src)%nat.
Proof.
  unfold Json.parse_scalar.
  assert (Hlit : forall lit w,
             match Json.strip_prefix (bytes_of_string lit) src with
             | Some r => Ok (w, r)
             | None => Err Json.SyntaxError
             end = Ok (v, rest) -> (List.length rest <= List.length src)%nat).
  { intros lit w. destruct (Json.strip_prefix _ src) as [r |] eqn:E; [| discriminate].
    intros [= <- <-]. now apply strip_prefix_length in E. }
  destruct (Byte.eqb c Json.quote).
  { destruct (Json.scan_string src) as [[raw r] |] eqn:E; [| discriminate].
    cbn. intros [= <- <-].
    apply (scan_string_length _ _ _ _ (le_n _)) in E. lia. }
  destruct (Byte.eqb c "t"); [apply Hlit |].
  destruct (Byte.eqb c "f"); [apply Hlit |].
  destruct (Byte.eqb c "n"); [apply Hlit |].
  destruct (Json.scan_number (c :: src)) as [[lit r] |] eqn:E; [| discriminate].
  cbn. intros [= <- <-]. apply scan_number_length in E. cbn in E. lia.
Qed.

Lemma parse_value_S (fuel : nat) (src : list byte) :
  Json.parse_value (S fuel) src =
    match Json.skip_space src with
    | [] => Err Json.SyntaxError
    | c :: rest =>
        if Byte.eqb c "{"%byte then
          match Json.expect "}"%byte rest with
          | Some rest1 => Ok (Json.JObject [], rest1)
          | None => Json.parse_members fuel rest []
          end
        else if Byte.eqb c "["%byte then
          match Json.expect "]"%byte rest with
          | Some rest1 => Ok (Json.JArray [], rest1)
          | None => Json.parse_elements fuel rest []
          end
        else Json.parse_scalar c rest
    end.
Proof. reflexivity. Qed.

Lemma parse_elements_S (fuel : nat) (src : list byte) (acc : list Json.value) :
  Json.parse_elements (S fuel) src acc =
    rbind (Json.parse_value fuel src) (fun '(v, rest) =>
      match Json.expect ","%byte rest, Json.expect "]"%byte rest with
      | Some rest1, _ => Json.parse_elements fuel rest1 (acc ++ [v])
      | None, Some rest1 => Ok (Json.JArray (acc ++ [v]), rest1)
      | None, None => Err Json.SyntaxError
      end).
Proof. reflexivity. Qed.

Lemma parse_members_S (fuel : nat) (src : list byte) (acc : list (list byte * Json.value)) :
  Json.parse_members (S fuel) src acc =
    match Json.expect Json.quote src with
    | Some rest =>
        rbind (Json.scan_string rest) (fun '(raw, rest1) =>
          match Json.expect ":"%byte rest1 with
          | Some rest2 =>
              rbind (Json.parse_value fuel rest2) (fun '(v, rest3) =>
                let acc := acc ++ [(Json.unquote raw, v)] in
                match Json.expect ","%byte rest3, Json.expect "}"%byte rest3 with
                | Some rest4, _ => Json.parse_members fuel rest4 acc
                | None, Some rest4 => Ok (Json.JObject acc, rest4)
                | None, None => Err Json.SyntaxError
                end)
          | None => Err Json.SyntaxError
          end)
    | None => Err Json.SyntaxError
    end.
Proof. reflexivity. Qed.

(** A value, the elements of an array and the members of an object are at
    least one byte. *)
Lemma parse_consumes (fuel : nat) :
  (forall src v rest,
      Json.parse_value fuel src = Ok (v, rest) -> (List.length rest < List.length src)%nat)
  /\ (forall src acc v rest,
      Json.parse_elements fuel src acc = Ok (v, rest) ->
      (List.length rest < List.length src)%nat)
  /\ (forall src acc v rest,
      Json.parse_members fuel src acc = Ok (v, rest) ->
      (List.length rest < List.length src)%nat).
Proof.
  induction fuel as [| fuel (IHv & IHe & IHm)]; [repeat split; discriminate |].
  split; [| split].
  - intros src v rest. rewrite parse_value_S.
    pose proof (skip_space_length src) as Hsp.
    destruct (Json.skip_space src) as [| c r]; [discriminate |]. cbn [List.length] in Hsp.
    destruct (Byte.eqb c "{").
    { destruct (Json.expect "}" r) as [r1 |] eqn:E.
      - intros [= <- <-]. apply expect_length in E. lia.
      - intros H. apply IHm in H. lia. }
    destruct (Byte.eqb c "[").
    { destruct (Json.expect "]" r) as [r1 |] eqn:E.
      - intros [= <- <-]. apply expect_length in E. lia.
      - intros H. apply IHe in H. lia. }
    intros H. apply parse_scalar_length in H. lia.
  - intros src acc v rest. rewrite parse_elements_S.
    destruct (Json.parse_value fuel src) as [[v0 r0] |] eqn:Ev; [| discriminate].
    apply IHv in Ev. cbn [rbind].
    destruct (Json.expect "," r0) as [r1 |] eqn:E1.
    { intros H. apply IHe in H. apply expect_length in E1. lia. }
    destruct (Json.expect "]" r0) as [r1 |] eqn:E2; [| discriminate].
    intros [= <- <-]. apply expect_length in E2. lia.
  - intros src acc v rest. rewrite parse_members_S.
    destruct (Json.expect Json.quote src) as [r |] eqn:Eq; [| discriminate].
    apply expect_length in Eq.
    destruct (Json.scan_string r) as [[raw r1] |] eqn:Es; [| discriminate].
    apply (scan_string_length _ _ _ _ (le_n _)) in Es. cbn [rbind].
    destruct (Json.expect ":" r1) as [r2 |] eqn:Ec; [| discriminate].
    apply expect_length in Ec.
    destruct (Json.parse_value fuel r2) as [[v0 r3] |] eqn:Ev; [| discriminate].
    apply IHv in Ev. cbn [rbind]. cbv zeta.
    destruct (Json.expect "," r3) as [r4 |] eqn:E1.
    { intros H. apply IHm in H. apply expect_length in E1. lia. }
    destruct (Json.expect "}" r3) as [r4 |] eqn:E2; [| discriminate].
    intros [= <- <-]. apply expect_length in E2. lia.
Qed.

(** With fuel above twice the bytes to read, more fuel changes
    nothing. *)
Lemma parse_fuel (fuel : nat) :
  forall fuel',
    (forall src,
        (2 * List.length src + 1 <= fuel)%nat -> (2 * List.length src + 1 <= fuel')%nat ->
        Json.parse_value fuel src = Json.parse_value fuel' src)
    /\ (forall src acc,
        (2 * List.length src + 2 <= fuel)%nat -> (2 * List.length src + 2 <= fuel')%nat ->
        Json.parse_elements fuel src acc = Json.parse_elements fuel' src acc)
    /\ (forall src acc,
        (2 * List.length src + 2 <= fuel)%nat -> (2 * List.length src + 2 <= fuel')%nat ->
        Json.parse_members fuel src acc = Json.parse_members fuel' src acc).
Proof.
  induction fuel as [| fuel IH]; intros fuel'; [repeat split; intros; lia |].
  destruct fuel' as [| fuel']; [repeat split; intros; lia |].
  destruct (IH fuel') as (IHv & IHe & IHm).
  destruct (parse_consumes fuel') as (Cv & _ & _).
  split; [| split].
  - intros src H1 H2. rewrite !parse_value_S.
    pose proof (skip_space_length src) as Hsp.
    destruct (Json.skip_space src) as [| c r]; [reflexivity |]. cbn [List.length] in Hsp.
    destruct (Byte.eqb c "{").
    { destruct (Json.expect "}" r); [reflexivity |]. apply IHm; lia. }
    destruct (Byte.eqb c "[").
    { destruct (Json.expect "]" r); [reflexivity |]. apply IHe; lia. }
    reflexivity.
  - intros src acc H1 H2. rewrite !parse_elements_S.
    rewrite (IHv src) by lia.
    destruct (Json.parse_value fuel' src) as [[v0 r0] |] eqn:Ev; [| reflexivity].
    apply Cv in Ev. cbn [rbind].
    destruct (Json.expect "," r0) as [r1 |] eqn:E1; [| reflexivity].
    apply expect_length in E1. apply IHe; lia.
  - intros src acc H1 H2. rewrite !parse_members_S.
    destruct (Json.expect Json.quote src) as [r |] eqn:Eq; [| reflexivity].
    apply expect_length in Eq.
    destruct (Json.scan_string r) as [[raw r1] |] eqn:Es; [| reflexivity].
    apply (scan_string_length _ _ _ _ (le_n _)) in Es. cbn [rbind].
    destruct (Json.expect ":" r1) as [r2 |] eqn:Ec; [| reflexivity].
    apply expect_length in Ec.
    rewrite (IHv r2) by lia.
    destruct (Json.parse_value fuel' r2) as [[v0 r3] |] eqn:Ev; [| reflexivity].
    apply Cv in Ev. cbn [rbind]. cbv zeta.
    destruct (Json.expect "," r3) as [r4 |] eqn:E1; [| reflexivity].
    apply expect_length in E1. apply IHm; lia.
Qed.

(** The fuel of [fuel_for] is enough: with more, a value is parsed the
    same. *)
Lemma parse_value_fuel (data : list byte) (fuel : nat) :
  (Json.fuel_for data <= fuel)%nat ->
  Json.parse_value fuel data = Json.parse_value (Json.fuel_for data) data.
Proof.
  intros H. unfold Json.fuel_for in *.
  apply (proj1 (parse_fuel fuel (2 * List.length data + 2))); lia.
Qed.

(** ** Traces *)

Lemma append_empty_r (s : string) : (s ++ "")%string = s.
Proof. induction s as [| c s IH]; cbn; [reflexivity | now rewrite IH]. Qed.

Lemma append_assoc (a b c : string) : ((a ++ b) ++ c)%string = (a ++ (b ++ c))%string.
Proof. induction a as [| x a IH]; cbn; [reflexivity | now rewrite IH]. Qed.

Lemma stdout_app (t u : Trace) : stdout (t ++ u) = (stdout t ++ stdout u)%string.
Proof.
  induction t as [| e t IH]; cbn; [reflexivity |].
  destruct e; cbn; try exact IH. now rewrite IH, append_assoc.
Qed.

Lemma saved_app (t u : Trace) : saved (t ++ u) = saved t ++ saved u.
Proof.
  induction t as [| e t IH]; cbn; [reflexivity |].
  destruct e; cbn; try exact IH. now rewrite IH.
Qed.

Lemma without_saves_app (t u : Trace) :
  without_saves (t ++ u) = without_saves t ++ without_saves u.
Proof. apply filter_app. Qed.

(** Printing returns the same result from every trace, which it extends
    with its own events; it saves nothing. *)
Lemma print_extends (env : Env) (args : Args) (hb pb sb : list byte) (token : string) :
  exists res evs,
    (forall t, print env args hb pb sb token t = (res, t ++ evs))
    /\ saved evs = [] /\ without_saves evs = evs.
Proof.
  assert (Hpretty : forall body wrap,
    exists res evs,
      (forall t, (err <- Pretty env body ;;
                  match err with
                  | Some err => fail (wrap err)
                  | None => ret tt
                  end) t = (res, t ++ evs))
      /\ saved evs = [] /\ without_saves evs = evs).
  { intros body wrap. unfold Pretty, bind, emit, ret, fail.
    destruct (dump_Pretty env body) as [text [err |]].
    - exists (Err (wrap err)), [CallPretty body; Write text].
      split; [| split; reflexivity].
      intros t. now rewrite <- app_assoc.
    - exists (Ok tt), [CallPretty body; Write text].
      split; [| split; reflexivity].
      intros t. now rewrite <- app_assoc. }
  unfold print.
  destruct (header args); [apply Hpretty |].
  destruct (payload args); [apply Hpretty |].
  destruct (signature args); [apply Hpretty |].
  exists (Ok tt), [Write (token ++ String LF "")%string].
  split; [intros t; reflexivity | split; reflexivity].
Qed.

(** [run] from the tokens on: once the collaborators have answered, the
    trace is the four calls, what printing adds and, if printing works,
    one save of the configuration with the two tokens. *)
Lemma run_after_tokens (env : Env) (args : Args) (cfg : Config) (connection : Connection)
      (accessToken refreshToken : string) :
  check_options args = Ok tt ->
  config_Load env = Ok (Some cfg) ->
  cfg_Armed env cfg = Ok true ->
  cfg_Connection env cfg = Ok connection ->
  Tokens connection = Ok (accessToken, refreshToken) ->
  let selected := selectedToken (refresh args) accessToken refreshToken in
  let calls := [CallLoad; CallArmed cfg; CallConnection cfg; CallTokens] in
  let cfg' := {| AccessToken := accessToken; RefreshToken := refreshToken;
                 Others := Others cfg |} in
  exec env args =
    match decode selected with
    | Err e => (Err e, calls)
    | Ok (hb, pb, sb) =>
        match print env args hb pb sb selected calls with
        | (Err e, t) => (Err e, t)
        | (Ok _, t) =>
            (match config_Save env cfg' with
             | Some err => Err (ErrSaveConfig err)
             | None => Ok tt
             end, t ++ [CallSave cfg'])
        end
    end.
Proof.
  intros Hopt Hload Harmed Hconn Htok selected calls cfg'.
  unfold exec, run. rewrite Hopt, Hload.
  cbn [lift]. unfold bind at 1. cbn [ret].
  unfold bind at 1. cbn [emit app].
  unfold bind at 1. cbn [emit app]. rewrite Harmed.
  unfold bind at 1. cbn [emit app]. rewrite Hconn.
  unfold bind at 1. cbn [emit app]. rewrite Htok.
  fold selected. destruct (decode selected) as [[[hb pb] sb] | e]; cbn [lift].
  - unfold bind at 1. cbn [ret]. unfold bind at 1. fold calls.
    destruct (print env args hb pb sb selected calls) as [[[] | e] t]; [| reflexivity].
    unfold bind at 1. cbn [emit]. fold cfg'.
    destruct (config_Save env cfg'); reflexivity.
  - reflexivity.
Qed.

(** ** Decoding a token *)

(** A token of three segments: either the JWT parser accepts it, which is
    when it decodes header and payload and accepts their JSON, and the
    three segments are decoded in turn; or the result is the error of the
    parser. *)
Lemma decode_three_segments (token h p s : string) :
  Strings.Split token "." = [h; p; s] ->
  match Jwt.DecodeSegment h, Jwt.DecodeSegment p with
  | Ok hb, Ok pb =>
      if header_accepted hb && claims_accepted pb
      then decode token = decode_parts h p s
      else exists e, decode token = Err (ErrParseToken e)
  | _, _ => exists e, decode token = Err (ErrParseToken e)
  end.
Proof.
  intros Hsplit. unfold decode, decode_parts, Jwt.ParseUnverified. rewrite Hsplit.
  cbn [List.length Nat.eqb negb nth].
  change (index [h; p; s] 0) with (@Ok RunError _ h).
  change (index [h; p; s] 1) with (@Ok RunError _ p).
  change (index [h; p; s] 2) with (@Ok RunError _ s).
  cbn [rbind].
  unfold header_accepted, claims_accepted, is_ok.
  destruct (Jwt.DecodeSegment h) as [hb | e1].
  2: { destruct (Jwt.DecodeSegment p); destruct (Strings.HasPrefix _ _);
       eexists; reflexivity. }
  destruct (Jwt.DecodeSegment p) as [pb | e2].
  2: { destruct (Json.Unmarshal hb); eexists; reflexivity. }
  destruct (Json.Unmarshal hb) as [Header | e3]; [| eexists; reflexivity].
  destruct (Json.Decode pb) as [claims | e4];
    [| rewrite andb_false_r; eexists; reflexivity].
  destruct (Json.lookup _ Header) as [[] |]; try (eexists; reflexivity).
  destruct (Jwt.GetSigningMethod _); [reflexivity | eexists; reflexivity].
Qed.

(** Three valid segments: the token decodes to their bytes when the JWT
    parser accepts the JSON of header and payload, and is refused by the
    parser otherwise. *)
Lemma decode_join3_valid (h p s : string) :
  base64url_nopad h = true -> base64url_nopad p = true -> base64url_nopad s = true ->
  exists hb pb sb,
    DecodeString RawURLEncoding h = Ok hb
    /\ DecodeString RawURLEncoding p = Ok pb
    /\ DecodeString RawURLEncoding s = Ok sb
    /\ (header_accepted hb && claims_accepted pb = true ->
        decode (join3 h p s) = Ok (hb, pb, sb))
    /\ (header_accepted hb && claims_accepted pb = false ->
        exists e, decode (join3 h p s) = Err (ErrParseToken e)).
Proof.
  intros Hh Hp Hs.
  destruct (valid_segment_decodes h Hh) as (hb & Hhb & Hjh).
  destruct (valid_segment_decodes p Hp) as (pb & Hpb & Hjp).
  destruct (valid_segment_decodes s Hs) as (sb & Hsb & _).
  exists hb, pb, sb. repeat (split; [assumption |]).
  assert (Hsplit : Strings.Split (join3 h p s) "." = [h; p; s]).
  { apply Split_join3; apply in_alphabet_no_dot.
    - unfold base64url_nopad in Hh. now apply andb_true_iff in Hh.
    - unfold base64url_nopad in Hp. now apply andb_true_iff in Hp.
    - unfold base64url_nopad in Hs. now apply andb_true_iff in Hs. }
  pose proof (decode_three_segments _ _ _ _ Hsplit) as Hdec.
  rewrite Hjh, Hjp in Hdec.
  split; intros Hacc; rewrite Hacc in Hdec; [| exact Hdec].
  rewrite Hdec. unfold decode_parts. now rewrite Hhb, Hpb, Hsb.
Qed.

(** C1, as the claim states it, fails: three non-empty segments of valid
    base64url without padding, and the token is refused, for its header
    is not JSON; the same with the header and payload of the sample token
    decodes. Decoding goes through the JWT parser, which parses both. *)
Lemma valid_segments_not_json_refused :
  Strings.Split "AAAA.AAAA.AAAA" "." = ["AAAA"; "AAAA"; "AAAA"]
  /\ base64url_nopad "AAAA" = true
  /\ DecodeString RawURLEncoding "AAAA" = Ok [x00; x00; x00]
  /\ decode "AAAA.AAAA.AAAA" = Err (ErrParseToken (Jwt.MalformedJson Json.SyntaxError))
  /\ decode "eyJhbGciOiJub25lIn0.eyJzdWIiOiJ4In0.AAAA"
     = Ok (sample_header, sample_payload, [x00; x00; x00]).
Proof. vm_compute. repeat split. Qed.

(** C1, amended: for every input of exactly three ['.']-separated
    segments, each valid base64url without padding, the segments decode,
    and [decode] succeeds and returns the three decoded buffers when the
    JWT parser accepts the decoded header (JSON of an object with a
    registered ["alg"]) and the decoded payload (JSON of an object);
    otherwise it fails with the error of the parser: [decode] does parse
    both as JSON. *)
Theorem decode_valid_segments (h p s : string) :
  base64url_nopad h = true -> base64url_nopad p = true -> base64url_nopad s = true ->
  Strings.Split (join3 h p s) "." = [h; p; s]
  /\ exists hb pb sb,
      DecodeString RawURLEncoding h = Ok hb
      /\ DecodeString RawURLEncoding p = Ok pb
      /\ DecodeString RawURLEncoding s = Ok sb
      /\ (header_accepted hb && claims_accepted pb = true ->
          decode (join3 h p s) = Ok (hb, pb, sb))
      /\ (header_accepted hb && claims_accepted pb = false ->
          exists e, decode (join3 h p s) = Err (ErrParseToken e)).
Proof.
  intros Hh Hp Hs. split; [| now apply decode_join3_valid].
  apply Split_join3; apply in_alphabet_no_dot.
  - unfold base64url_nopad in Hh. now apply andb_true_iff in Hh.
  - unfold base64url_nopad in Hp. now apply andb_true_iff in Hp.
  - unfold base64url_nopad in Hs. now apply andb_true_iff in Hs.
Qed.

Lemma decode_valid_segments_witness :
  Strings.Split sample_token "." = ["eyJhbGciOiJub25lIn0"; "eyJzdWIiOiJ4In0"; "c2ln"]
  /\ decode sample_token = Ok (sample_header, sample_payload, sample_signature).
Proof.
  destruct (decode_valid_segments "eyJhbGciOiJub25lIn0" "eyJzdWIiOiJ4In0" "c2ln"
              eq_refl eq_refl eq_refl)
    as (Hsplit & hb & pb & sb & Eh & Ep & Es & Hok & _).
  split; [exact Hsplit |].
  vm_compute in Eh, Ep, Es.
  injection Eh as <-. injection Ep as <-. injection Es as <-.
  apply Hok. vm_compute. reflexivity.
Defined.

(** ** The round trip *)

(** C2, as the claim states it, fails: three buffers that are not JSON,
    encoded and joined, are refused. *)
Lemma roundtrip_refused_without_json :
  let b := bytes_of_string "abc" in
  encode_segment b = "YWJj"
  /\ join3 (encode_segment b) (encode_segment b) (encode_segment b) = "YWJj.YWJj.YWJj"
  /\ decode (join3 (encode_segment b) (encode_segment b) (encode_segment b))
     = Err (ErrParseToken (Jwt.MalformedJson Json.SyntaxError))
  /\ decode (join3 (encode_segment b) (encode_segment b) (encode_segment b))
     <> Ok (b, b, b).
Proof. vm_compute. repeat split. discriminate. Qed.

(** C2, amended: for all three byte buffers of which the first is a
    header and the second a payload the JWT parser accepts, encoding each
    with the reference base64url encoder without padding, joining the
    three with ['.'] and decoding gives the three buffers back. *)
Theorem decode_encode_roundtrip (hb pb sb : list byte) :
  header_accepted hb = true -> claims_accepted pb = true ->
  decode (join3 (encode_segment hb) (encode_segment pb) (encode_segment sb))
  = Ok (hb, pb, sb).
Proof.
  intros Hha Hpa.
  destruct (encode_segment_valid hb) as (Vh & Dh).
  destruct (encode_segment_valid pb) as (Vp & Dp).
  destruct (encode_segment_valid sb) as (Vs & Ds).
  destruct (decode_join3_valid _ _ _ Vh Vp Vs)
    as (hb' & pb' & sb' & Eh & Ep & Es & Hok & _).
  rewrite Dh in Eh. rewrite Dp in Ep. rewrite Ds in Es.
  injection Eh as <-. injection Ep as <-. injection Es as <-.
  apply Hok. now rewrite Hha, Hpa.
Qed.

Lemma decode_encode_roundtrip_witness :
  decode (join3 (encode_segment sample_header) (encode_segment sample_payload)
                (encode_segment sample_signature))
  = Ok (sample_header, sample_payload, sample_signature)
  /\ join3 (encode_segment sample_header) (encode_segment sample_payload)
           (encode_segment sample_signature) = sample_token.
Proof.
  split; [| vm_compute; reflexivity].
  apply (decode_encode_roundtrip sample_header sample_payload sample_signature);
    vm_compute; reflexivity.
Defined.

(** ** Validation of the options *)

(** C3: of the eight combinations of the three options, the check accepts
    the four with at most one option set, where printing is the rendering
    of the mode the specification gives (none: [full], one: its mode), and
    rejects the others as mutually exclusive, [run] then returning before
    any call of a collaborator and any write. *)
Theorem options_mutually_exclusive (env : Env) (args : Args) :
  ((flags_set args <= 1)%nat ->
     check_options args = Ok tt
     /\ exists mode, validate args = Ok mode
        /\ forall headerBytes payloadBytes signatureBytes token,
             print env args headerBytes payloadBytes signatureBytes token
             = render env mode headerBytes payloadBytes signatureBytes token)
  /\ ((1 < flags_set args)%nat ->
     check_options args = Err ErrMutuallyExclusive
     /\ validate args = Err ErrMutuallyExclusive
     /\ exec env args = (Err ErrMutuallyExclusive, [])).
Proof.
  destruct args as [[|] [|] [|] r]; cbv [flags_set header payload signature];
    split; intros Hn; try (exfalso; cbn in Hn; lia).
  all: try (split; [reflexivity | split; reflexivity]).
  all: split; [reflexivity | eexists; split; [reflexivity | intros; reflexivity]].
Qed.

Lemma options_mutually_exclusive_witness :
  exec (sample_env sample_token sample_token)
       {| header := true; payload := true; signature := false; refresh := false |}
  = (Err ErrMutuallyExclusive, [])
  /\ check_options {| header := false; payload := true; signature := false; refresh := true |}
     = Ok tt.
Proof.
  split.
  - apply (options_mutually_exclusive (sample_env sample_token sample_token)
             {| header := true; payload := true; signature := false; refresh := false |}).
    cbn. lia.
  - apply (options_mutually_exclusive (sample_env sample_token sample_token)
             {| header := false; payload := true; signature := false; refresh := true |}).
    cbn. lia.
Defined.

(** ** The token printed as it is *)

(** C4, as the claim states it, fails: a token of one segment is returned
    by the resolver, no option is set, and nothing is written, because the
    token is parsed before it is printed. *)
Lemma full_mode_unparsed_token_not_written :
  let env := sample_env "abc" "x" in
  let args := no_flags false in
  flags_set args = 0%nat
  /\ exec env args
     = (Err (ErrParseToken Jwt.InvalidSegments),
        [CallLoad; CallArmed sample_cfg; CallConnection sample_cfg; CallTokens])
  /\ stdout (snd (exec env args)) = ""
  /\ stdout (snd (exec env args)) <> ("abc" ++ String LF "")%string.
Proof. vm_compute. repeat split; discriminate. Qed.

(** C4, amended: when none of the options [header], [payload] and
    [signature] is set, for every token returned by the resolver that the
    parsing and decoding step accepts, what the command writes to the
    standard output is the selected token followed by a new line. *)
Theorem full_mode_writes_token (env : Env) (args : Args) (cfg : Config)
        (connection : Connection) (accessToken refreshToken : string)
        (hb pb sb : list byte) :
  header args = false -> payload args = false -> signature args = false ->
  config_Load env = Ok (Some cfg) ->
  cfg_Armed env cfg = Ok true ->
  cfg_Connection env cfg = Ok connection ->
  Tokens connection = Ok (accessToken, refreshToken) ->
  decode (selectedToken (refresh args) accessToken refreshToken) = Ok (hb, pb, sb) ->
  stdout (snd (exec env args))
  = (selectedToken (refresh args) accessToken refreshToken ++ String LF "")%string.
Proof.
  intros Hh Hp Hs Hload Harmed Hconn Htok Hdec.
  rewrite (run_after_tokens env args cfg connection accessToken refreshToken);
    try assumption.
  - rewrite Hdec. unfold print. rewrite Hh, Hp, Hs. cbn [emit app].
    destruct (config_Save env _); cbn; now rewrite append_empty_r.
  - unfold check_options. now rewrite Hh, Hp, Hs.
Qed.

Lemma full_mode_writes_token_witness :
  stdout (snd (exec (sample_env "x" sample_token) (no_flags true)))
  = (sample_token ++ String LF "")%string.
Proof.
  apply (full_mode_writes_token (sample_env "x" sample_token) (no_flags true) sample_cfg
           {| Tokens := Ok ("x", sample_token) |} "x" sample_token
           sample_header sample_payload sample_signature);
    vm_compute; reflexivity.
Defined.

(** ** Tokens of the wrong shape *)

(** C5, as the claim states it, fails: a token with an empty signature
    segment, as an unsecured JWT has, decodes. *)
Lemma empty_signature_decodes :
  Strings.Split "eyJhbGciOiJub25lIn0.eyJzdWIiOiJ4In0." "."
  = ["eyJhbGciOiJub25lIn0"; "eyJzdWIiOiJ4In0"; ""]
  /\ decode "eyJhbGciOiJub25lIn0.eyJzdWIiOiJ4In0." = Ok (sample_header, sample_payload, []).
Proof. vm_compute. split; reflexivity. Qed.

(** C5, amended: for every input that does not split at ['.'] in exactly
    three segments (one, two, four or more), or whose header or payload
    segment is empty, [decode] fails with the error of the parser, a
    malformed token. (An empty signature segment is accepted.) *)
Theorem decode_rejects_wrong_shape (token : string) :
  let parts := Strings.Split token "." in
  List.length parts <> 3%nat \/ nth 0 parts "" = "" \/ nth 1 parts "" = "" ->
  exists e, decode token = Err (ErrParseToken e).
Proof.
  intros parts Hshape.
  destruct (Nat.eqb_spec (List.length parts) 3) as [Hlen | Hlen].
  - destruct parts as [| h [| p [| s [| x parts']]]] eqn:Hparts; try discriminate Hlen.
    pose proof (decode_three_segments token h p s Hparts) as Hdec.
    cbn [nth] in Hshape. destruct Hshape as [Hne | [-> | ->]].
    + now contradiction Hne.
    + change (Jwt.DecodeSegment "") with (@Ok CorruptInputError _ (@nil byte)) in Hdec.
      destruct (Jwt.DecodeSegment p); exact Hdec.
    + change (Jwt.DecodeSegment "") with (@Ok CorruptInputError _ (@nil byte)) in Hdec.
      destruct (Jwt.DecodeSegment h) as [hb |]; [| exact Hdec].
      change (claims_accepted []) with false in Hdec.
      now rewrite andb_false_r in Hdec.
  - exists Jwt.InvalidSegments. unfold decode, Jwt.ParseUnverified.
    fold parts. apply Nat.eqb_neq in Hlen. now rewrite Hlen.
Qed.

Lemma decode_rejects_wrong_shape_witness :
  (exists e, decode "eyJhbGciOiJub25lIn0.eyJzdWIiOiJ4In0" = Err (ErrParseToken e))
  /\ (exists e, decode ".eyJzdWIiOiJ4In0.c2ln" = Err (ErrParseToken e)).
Proof.
  split.
  - apply (decode_rejects_wrong_shape "eyJhbGciOiJub25lIn0.eyJzdWIiOiJ4In0").
    left. vm_compute. discriminate.
  - apply (decode_rejects_wrong_shape ".eyJzdWIiOiJ4In0.c2ln").
    right. left. vm_compute. reflexivity.
Defined.

(** ** Segments that are not base64url *)

(** C6, as the claim states it, fails, in two ways: a new line, which is
    outside the alphabet, is skipped, and the token decodes; and a
    character outside the alphabet in the payload is found by the JWT
    parser, whose error names no segment. *)
Lemma offending_segment_accepted_or_not_named :
  let tok1 := ("eyJhbGciOiJub25lIn0.eyJzdWIiOiJ4In0.c2ln" ++ String LF "")%string in
  let tok2 := "eyJhbGciOiJub25lIn0.eyJzdWIiOi*4In0.c2ln" in
  (Strings.Split tok1 "."
   = ["eyJhbGciOiJub25lIn0"; "eyJzdWIiOiJ4In0"; ("c2ln" ++ String LF "")%string]
   /\ outside_alphabet ("c2ln" ++ String LF "")%string = true
   /\ decode tok1 = Ok (sample_header, sample_payload, sample_signature))
  /\ (Strings.Split tok2 "." = ["eyJhbGciOiJub25lIn0"; "eyJzdWIiOi*4In0"; "c2ln"]
      /\ outside_alphabet "eyJzdWIiOi*4In0" = true
      /\ decode tok2
         = Err (ErrParseToken (Jwt.MalformedSegment (CorruptInput 10)))).
Proof. vm_compute. repeat split. Qed.

(** The decoder without padding stops at the first offending character
    and reports its offset. *)
Lemma decode_from_first_offending (l : list ascii) :
  existsb (fun c => negb (in_alphabet c) && negb (is_newline c)) l = true ->
  forall (dbuf : list Z) (si : Z),
    decode_from RawURLEncoding l si dbuf = Err (CorruptInput (first_offending_from l si)).
Proof.
  induction l as [| c l IH]; intros Hex dbuf si; [discriminate |].
  cbn [existsb first_offending_from] in Hex |- *.
  destruct (in_alphabet c) eqn:Hc.
  - cbn [negb andb orb] in Hex |- *.
    destruct (in_alphabet_decodeMap c Hc) as [out Hout].
    rewrite (decode_from_sextet RawURLEncoding c _ si dbuf out Hout).
    rewrite !quantum_bytes_nonstrict by reflexivity. cbn [rbind].
    destruct (List.length (dbuf ++ [out]) =? 4)%nat.
    + now rewrite (IH Hex [] (si + 1)).
    + now apply IH.
  - pose proof (not_in_alphabet_decodeMap c Hc) as Hnone.
    destruct (is_newline c) eqn:Hn.
    + cbn [negb andb orb] in Hex |- *.
      rewrite (decode_from_newline RawURLEncoding c _ si dbuf Hnone Hn).
      now apply IH.
    + cbn [decode_from negb andb]. rewrite Hnone, Hn. cbn [is_pad padChar RawURLEncoding negb].
      do 2 f_equal. lia.
Qed.

Lemma first_offending_segment_fails (seg : string) :
  offending seg = true ->
  DecodeString RawURLEncoding seg = Err (CorruptInput (first_offending seg)).
Proof. intros H. apply decode_from_first_offending. exact H. Qed.

(** The parts that the parser returns are the token split at ['.'],
    whatever its verdict. *)
Lemma ParseUnverified_parts (token : string) :
  fst (Jwt.ParseUnverified token) = Strings.Split token ".".
Proof.
  unfold Jwt.ParseUnverified.
  destruct (negb _); [reflexivity |].
  destruct (Jwt.DecodeSegment _) as [hb |];
    [| destruct (Strings.HasPrefix _ _); reflexivity].
  destruct (Json.Unmarshal hb) as [Header |]; [| reflexivity].
  destruct (Jwt.DecodeSegment _) as [pb |]; [| reflexivity].
  destruct (Json.Decode pb); [| reflexivity].
  destruct (Json.lookup _ Header) as [[] |]; try reflexivity.
  destruct (Jwt.GetSigningMethod _); reflexivity.
Qed.

(** A token of three segments that the parser accepts: the parser has
    decoded its header and payload segments. *)
Lemma ParseUnverified_accepts (token h p s : string) :
  Strings.Split token "." = [h; p; s] ->
  snd (Jwt.ParseUnverified token) = None ->
  (exists hb, Jwt.DecodeSegment h = Ok hb) /\ (exists pb, Jwt.DecodeSegment p = Ok pb).
Proof.
  intros Hsplit. unfold Jwt.ParseUnverified. rewrite Hsplit.
  cbn [List.length Nat.eqb negb nth].
  destruct (Jwt.DecodeSegment h) as [hb |];
    [| destruct (Strings.HasPrefix _ _); discriminate].
  destruct (Json.Unmarshal hb) as [Header |]; [| discriminate].
  destruct (Jwt.DecodeSegment p) as [pb |]; [| discriminate].
  intros _. eauto.
Qed.

(** C6, amended: for every input of three segments of which one has a
    padding character ['='] or another character outside the base64url
    alphabet, new lines apart, [decode] fails. When the JWT parser refuses
    the token, the error is the error of the parser, which names no
    segment. When the parser accepts it, the error is a decoding error
    that names the first of header, payload and signature that is an
    offending segment, with the offset of its first offending
    character. *)
Theorem decode_rejects_offending (token h p s : string) :
  Strings.Split token "." = [h; p; s] ->
  offending h || offending p || offending s = true ->
  (forall err, snd (Jwt.ParseUnverified token) = Some err ->
     decode token = Err (ErrParseToken err))
  /\ (snd (Jwt.ParseUnverified token) = None ->
      if offending h
      then decode token = Err (ErrDecodeHeader (CorruptInput (first_offending h)))
      else if offending p
      then decode token = Err (ErrDecodePayload (CorruptInput (first_offending p)))
      else decode token = Err (ErrDecodeSignature (CorruptInput (first_offending s)))).
Proof.
  intros Hsplit Hoff. split.
  - intros err Herr. unfold decode.
    destruct (Jwt.ParseUnverified token) as [parts verdict]. cbn [snd] in Herr.
    now rewrite Herr.
  - intros Hnone.
    destruct (ParseUnverified_accepts token h p s Hsplit Hnone) as [[hb Hjh] [pb Hjp]].
    pose proof (ParseUnverified_parts token) as Hparts. rewrite Hsplit in Hparts.
    assert (Hdec : decode token = decode_parts h p s).
    { unfold decode.
      destruct (Jwt.ParseUnverified token) as [parts verdict].
      cbn [fst snd] in Hparts, Hnone. subst parts verdict. reflexivity. }
    rewrite Hdec. unfold decode_parts.
    destruct (offending h) eqn:Hoh.
    { now rewrite (first_offending_segment_fails h Hoh). }
    destruct (accepted_segment_decodes h hb Hoh Hjh) as [hb' ->].
    destruct (offending p) eqn:Hop.
    { now rewrite (first_offending_segment_fails p Hop). }
    destruct (accepted_segment_decodes p pb Hop Hjp) as [pb' ->].
    cbn [orb] in Hoff.
    now rewrite (first_offending_segment_fails s Hoff).
Qed.

Lemma decode_rejects_offending_witness :
  decode "eyJhbGciOiJub25lIn0.eyJzdWIiOiJ4In0.c2ln="
  = Err (ErrDecodeSignature (CorruptInput 4))
  /\ decode "eyJhbGciOiJub25lIn0=.eyJzdWIiOiJ4In0.c2ln"
     = Err (ErrDecodeHeader (CorruptInput 19))
  /\ decode "eyJhbGciOiJub25lIn0.eyJzdWIiOi*4In0.c2ln"
     = Err (ErrParseToken (Jwt.MalformedSegment (CorruptInput 10))).
Proof.
  split; [| split].
  - destruct (decode_rejects_offending "eyJhbGciOiJub25lIn0.eyJzdWIiOiJ4In0.c2ln="
                "eyJhbGciOiJub25lIn0" "eyJzdWIiOiJ4In0" "c2ln=") as [_ H];
      [vm_compute; reflexivity .. |].
    apply H. vm_compute. reflexivity.
  - destruct (decode_rejects_offending "eyJhbGciOiJub25lIn0=.eyJzdWIiOiJ4In0.c2ln"
                "eyJhbGciOiJub25lIn0=" "eyJzdWIiOiJ4In0" "c2ln") as [_ H];
      [vm_compute; reflexivity .. |].
    apply H. vm_compute. reflexivity.
  - destruct (decode_rejects_offending "eyJhbGciOiJub25lIn0.eyJzdWIiOi*4In0.c2ln"
                "eyJhbGciOiJub25lIn0" "eyJzdWIiOi*4In0" "c2ln") as [H _];
      [vm_compute; reflexivity .. |].
    apply H. vm_compute. reflexivity.
Defined.

(** ** The session saved *)

(** C7, as the claim states it, fails: the retrieval of the tokens
    succeeds, the access token has one segment, and [run] returns at the
    parsing step, with no call of [config.Save]. *)
Lemma retrieval_without_save :
  let env := sample_env "abc" sample_token in
  let args := no_flags false in
  (exists connection,
      cfg_Connection env sample_cfg = Ok connection
      /\ Tokens connection = Ok ("abc", sample_token))
  /\ fst (exec env args) = Err (ErrParseToken Jwt.InvalidSegments)
  /\ saved (snd (exec env args)) = []
  /\ List.length (saved (snd (exec env args))) <> 1%nat.
Proof.
  cbv zeta. split; [eexists; split; reflexivity |].
  vm_compute. repeat split; discriminate.
Qed.

(** C7, amended: for every invocation in which the retrieval of the
    tokens succeeds and the selected token is parsed, decoded and printed
    without error, there is exactly one call of [config.Save], of the
    session with its access token and refresh token set to the pair just
    retrieved, whether [refresh] selected the refresh token or not. *)
Theorem one_save_with_both_tokens (env : Env) (args : Args) (cfg : Config)
        (connection : Connection) (accessToken refreshToken : string)
        (hb pb sb : list byte) :
  check_options args = Ok tt ->
  config_Load env = Ok (Some cfg) ->
  cfg_Armed env cfg = Ok true ->
  cfg_Connection env cfg = Ok connection ->
  Tokens connection = Ok (accessToken, refreshToken) ->
  decode (selectedToken (refresh args) accessToken refreshToken) = Ok (hb, pb, sb) ->
  fst (print env args hb pb sb (selectedToken (refresh args) accessToken refreshToken) [])
  = Ok tt ->
  saved (snd (exec env args))
  = [{| AccessToken := accessToken; RefreshToken := refreshToken; Others := Others cfg |}].
Proof.
  intros Hopt Hload Harmed Hconn Htok Hdec Hprint.
  rewrite (run_after_tokens env args cfg connection accessToken refreshToken);
    try assumption.
  rewrite Hdec.
  destruct (print_extends env args hb pb sb
              (selectedToken (refresh args) accessToken refreshToken))
    as (res & evs & Hrun & Hsaved & _).
  rewrite Hrun in Hprint. cbn in Hprint. subst res.
  rewrite Hrun. cbn [snd]. rewrite !saved_app, Hsaved. reflexivity.
Qed.

Lemma one_save_with_both_tokens_witness :
  saved (snd (exec (sample_env "x" sample_token)
                   {| header := false; payload := true; signature := false;
                      refresh := true |}))
  = [{| AccessToken := "x"; RefreshToken := sample_token; Others := Others sample_cfg |}].
Proof.
  apply (one_save_with_both_tokens (sample_env "x" sample_token)
           {| header := false; payload := true; signature := false; refresh := true |}
           sample_cfg {| Tokens := Ok ("x", sample_token) |} "x" sample_token
           sample_header sample_payload sample_signature);
    vm_compute; reflexivity.
Defined.

(** ** Token selection *)

(** C8: token selection is a total function without failure: with
    [refresh] unset it returns the access token, with [refresh] set the
    refresh token, for every pair of tokens. *)
Theorem select_access_or_refresh (A B : string) :
  selectedToken false A B = A /\ selectedToken true A B = B.
Proof. split; reflexivity. Qed.

(** ** The parser returns three parts *)

(** Whatever the token is, decoding it does not panic. *)
Lemma decode_no_panic (token : string) : decode token <> Err PanicIndexOutOfRange.
Proof.
  destruct (Strings.Split token ".") as [| h [| p [| s [| x parts]]]] eqn:Hsplit.
  5: { unfold decode, Jwt.ParseUnverified. rewrite Hsplit. discriminate. }
  1-3: unfold decode, Jwt.ParseUnverified; rewrite Hsplit; discriminate.
  pose proof (decode_three_segments token h p s Hsplit) as Hdec.
  assert (Hno : forall e, decode token = Err (ErrParseToken e) ->
                          decode token <> Err PanicIndexOutOfRange) by congruence.
  destruct (Jwt.DecodeSegment h); [| destruct Hdec as [e0 He]; now apply (Hno e0)].
  destruct (Jwt.DecodeSegment p); [| destruct Hdec as [e0 He]; now apply (Hno e0)].
  destruct (header_accepted _ && claims_accepted _);
    [| destruct Hdec as [e0 He]; now apply (Hno e0)].
  rewrite Hdec. unfold decode_parts.
  repeat match goal with
         | |- context [match ?x with _ => _ end] => destruct x
         end; discriminate.
Qed.

(** C9: when [ParseUnverified] returns no error its parts are exactly
    three, so [parts[0]], [parts[1]] and [parts[2]] are in range: the
    three accesses of [run] yield their element and do not panic. *)
Theorem parse_ok_three_parts (tokenString : string) (parts : list string) :
  Jwt.ParseUnverified tokenString = (parts, None) ->
  List.length parts = 3%nat
  /\ exists part0 part1 part2,
       index parts 0 = Ok part0 /\ index parts 1 = Ok part1 /\ index parts 2 = Ok part2.
Proof.
  unfold Jwt.ParseUnverified.
  destruct (Nat.eqb_spec (List.length (Strings.Split tokenString ".")) 3) as [Hlen | Hlen];
    cbn [negb].
  - intros H.
    assert (Hparts : parts = Strings.Split tokenString ".").
    { repeat match type of H with
             | (if ?b then _ else _) = _ => destruct b
             | match ?x with _ => _ end = _ => destruct x
             end; congruence. }
    subst parts. split; [exact Hlen |].
    destruct (Strings.Split tokenString ".") as [| h [| p [| s [| x parts]]]];
      try discriminate Hlen.
    exists h, p, s. repeat split.
  - discriminate.
Qed.

Lemma parse_ok_three_parts_witness :
  Jwt.ParseUnverified sample_token = (["eyJhbGciOiJub25lIn0"; "eyJzdWIiOiJ4In0"; "c2ln"], None)
  /\ List.length ["eyJhbGciOiJub25lIn0"; "eyJzdWIiOiJ4In0"; "c2ln"] = 3%nat.
Proof.
  split; [vm_compute; reflexivity |].
  apply (parse_ok_three_parts sample_token). vm_compute. reflexivity.
Defined.

(** ** The token that is not selected *)

(** C10: two runs with the same options and collaborators and the same
    selected token, whatever the other token is, write the same to the
    standard output; their traces differ in the session saved only. *)
Theorem display_ignores_other_token (env : Env) (args : Args)
        (accessToken refreshToken accessToken' refreshToken' : string) :
  selectedToken (refresh args) accessToken refreshToken
  = selectedToken (refresh args) accessToken' refreshToken' ->
  let t := snd (exec (with_tokens env (accessToken, refreshToken)) args) in
  let t' := snd (exec (with_tokens env (accessToken', refreshToken')) args) in
  stdout t = stdout t' /\ without_saves t = without_saves t'.
Proof.
  intros Hsel.
  destruct (check_options args) as [[] |] eqn:Hopt;
    [| unfold exec, run; rewrite Hopt; split; reflexivity].
  destruct (config_Load env) as [[cfg |] | e] eqn:Hload;
    try (unfold exec, run; rewrite Hopt; cbn; rewrite Hload; split; reflexivity).
  destruct (cfg_Armed env cfg) as [[|] | e] eqn:Harmed;
    try (unfold exec, run; rewrite Hopt; cbn; rewrite Hload; cbn; rewrite Harmed;
         split; reflexivity).
  destruct (cfg_Connection env cfg) as [connection | e] eqn:Hconn;
    [| unfold exec, run; rewrite Hopt; cbn; rewrite Hload; cbn; rewrite Harmed; cbn;
       unfold rmap, rbind; rewrite Hconn; split; reflexivity].
  cbv zeta.
  rewrite (run_after_tokens (with_tokens env (accessToken, refreshToken)) args cfg
             {| Tokens := Ok (accessToken, refreshToken) |} accessToken refreshToken);
    try assumption; try reflexivity;
    [| cbn; unfold rmap, rbind; now rewrite Hconn].
  rewrite (run_after_tokens (with_tokens env (accessToken', refreshToken')) args cfg
             {| Tokens := Ok (accessToken', refreshToken') |} accessToken' refreshToken');
    try assumption; try reflexivity;
    [| cbn; unfold rmap, rbind; now rewrite Hconn].
  rewrite <- Hsel.
  destruct (decode (selectedToken (refresh args) accessToken refreshToken))
    as [[[hb pb] sb] | e]; [| split; reflexivity].
  assert (Hsame : forall tokens t,
             print (with_tokens env tokens) args hb pb sb
                   (selectedToken (refresh args) accessToken refreshToken) t
             = print env args hb pb sb
                     (selectedToken (refresh args) accessToken refreshToken) t)
    by reflexivity.
  rewrite !Hsame.
  destruct (print_extends env args hb pb sb
              (selectedToken (refresh args) accessToken refreshToken))
    as (res & evs & Hrun & _ & _).
  rewrite Hrun. destruct res as [[] | e]; [| split; reflexivity].
  cbn [snd]. rewrite !stdout_app, !without_saves_app. split; reflexivity.
Qed.

Lemma display_ignores_other_token_witness :
  let args := {| header := true; payload := false; signature := false; refresh := false |} in
  stdout (snd (exec (with_tokens (sample_env "" "") (sample_token, "one")) args))
  = stdout (snd (exec (with_tokens (sample_env "" "") (sample_token, "another")) args)).
Proof.
  apply (display_ignores_other_token (sample_env "" "")
           {| header := true; payload := false; signature := false; refresh := false |}
           sample_token "one" sample_token "another").
  reflexivity.
Defined.

(** * More on the command *)

(** ** The run, step by step *)

(** [run] as the steps it goes through: the result and the trace at each
    place it can return. *)
Lemma exec_steps (env : Env) (args : Args) :
  exec env args =
    match check_options args with
    | Err e => (Err e, [])
    | Ok _ =>
        match config_Load env with
        | Err err => (Err (ErrLoadConfig err), [CallLoad])
        | Ok None => (Err ErrNotLoggedIn, [CallLoad])
        | Ok (Some cfg) =>
            match cfg_Armed env cfg with
            | Err err => (Err (ErrCheckExpired err), [CallLoad; CallArmed cfg])
            | Ok false => (Err ErrTokensExpired, [CallLoad; CallArmed cfg])
            | Ok true =>
                match cfg_Connection env cfg with
                | Err err =>
                    (Err (ErrCreateConnection err),
                     [CallLoad; CallArmed cfg; CallConnection cfg])
                | Ok connection =>
                    let calls := [CallLoad; CallArmed cfg; CallConnection cfg; CallTokens] in
                    match Tokens connection with
                    | Err err => (Err (ErrGetToken err), calls)
                    | Ok (accessToken, refreshToken) =>
                        let selected :=
                          selectedToken (refresh args) accessToken refreshToken in
                        let cfg' := {| AccessToken := accessToken;
                                       RefreshToken := refreshToken;
                                       Others := Others cfg |} in
                        match decode selected with
                        | Err e => (Err e, calls)
                        | Ok (hb, pb, sb) =>
                            match print env args hb pb sb selected calls with
                            | (Err e, t) => (Err e, t)
                            | (Ok _, t) =>
                                (match config_Save env cfg' with
                                 | Some err => Err (ErrSaveConfig err)
                                 | None => Ok tt
                                 end, t ++ [CallSave cfg'])
                            end
                        end
                    end
                end
            end
        end
    end.
Proof.
  destruct (check_options args) as [[] | e] eqn:Hopt;
    [| unfold exec, run; rewrite Hopt; reflexivity].
  destruct (config_Load env) as [[cfg |] | e] eqn:Hload;
    try (unfold exec, run; rewrite Hopt; cbn; rewrite Hload; reflexivity).
  destruct (cfg_Armed env cfg) as [[|] | e] eqn:Harmed;
    try (unfold exec, run; rewrite Hopt; cbn; rewrite Hload; cbn; rewrite Harmed;
         reflexivity).
  destruct (cfg_Connection env cfg) as [connection | e] eqn:Hconn;
    [| unfold exec, run; rewrite Hopt; cbn; rewrite Hload; cbn; rewrite Harmed; cbn;
       rewrite Hconn; reflexivity].
  cbv zeta.
  destruct (Tokens connection) as [[accessToken refreshToken] | e] eqn:Htok;
    [| unfold exec, run; rewrite Hopt; cbn; rewrite Hload; cbn; rewrite Harmed; cbn;
       rewrite Hconn; cbn; rewrite Htok; reflexivity].
  now rewrite (run_after_tokens env args cfg connection accessToken refreshToken).
Qed.

(** Printing, by the option set: the events it adds and its result. *)
Lemma print_steps (env : Env) (args : Args) (hb pb sb : list byte) (token : string)
      (t : Trace) :
  let pretty body wrap :=
    (match snd (dump_Pretty env body) with
     | Some err => Err (wrap err)
     | None => Ok tt
     end, t ++ [CallPretty body; Write (fst (dump_Pretty env body))]) in
  print env args hb pb sb token t =
    if header args then pretty hb ErrDumpHeader
    else if payload args then pretty pb ErrDumpPayload
    else if signature args then pretty sb ErrDumpSignature
    else (Ok tt, t ++ [Write (token ++ String LF "")%string]).
Proof.
  assert (Hpretty : forall body wrap,
    (err <- Pretty env body ;;
     match err with
     | Some err => fail (wrap err)
     | None => ret tt
     end) t
    = (match snd (dump_Pretty env body) with
       | Some err => Err (wrap err)
       | None => Ok tt
       end, t ++ [CallPretty body; Write (fst (dump_Pretty env body))])).
  { intros body wrap. unfold Pretty, bind, emit, ret, fail.
    destruct (dump_Pretty env body) as [text [err |]]; cbn [fst snd];
      now rewrite <- app_assoc. }
  cbv zeta. unfold print.
  destruct (header args); [apply Hpretty |].
  destruct (payload args); [apply Hpretty |].
  destruct (signature args); [apply Hpretty |].
  reflexivity.
Qed.

(** The errors of [decode] are errors of parsing and decoding. *)
Lemma decode_error_before_print (token : string) (e : RunError) :
  decode token = Err e -> before_print e = true.
Proof.
  intros H. pose proof (decode_no_panic token) as Hnp.
  unfold decode, index in H, Hnp.
  destruct (Jwt.ParseUnverified token) as [parts [err |]]; [now injection H as <- |].
  destruct (nth_error parts 0); cbn [rbind] in H, Hnp; [| now contradiction Hnp].
  destruct (DecodeString _ _); [| now injection H as <-].
  destruct (nth_error parts 1); cbn [rbind] in H, Hnp; [| now contradiction Hnp].
  destruct (DecodeString _ _); [| now injection H as <-].
  destruct (nth_error parts 2); cbn [rbind] in H, Hnp; [| now contradiction Hnp].
  destruct (DecodeString _ _); [discriminate | now injection H as <-].
Qed.

(** The errors of [decode] are the four of lines 126-144. *)
Lemma decode_error_kind (token : string) (e : RunError) :
  decode token = Err e ->
  match e with
  | ErrParseToken _ | ErrDecodeHeader _ | ErrDecodePayload _ | ErrDecodeSignature _ => True
  | _ => False
  end.
Proof.
  intros H. pose proof (decode_error_before_print token e H) as Hb.
  destruct e; try exact I; try discriminate Hb.
  all: exfalso; unfold decode, index in H.
  all: destruct (Jwt.ParseUnverified token) as [parts [verr |]]; [discriminate H |].
  all: destruct (nth_error parts 0); cbn [rbind] in H; [| discriminate H].
  all: destruct (DecodeString _ _); [| discriminate H].
  all: destruct (nth_error parts 1); cbn [rbind] in H; [| discriminate H].
  all: destruct (DecodeString _ _); [| discriminate H].
  all: destruct (nth_error parts 2); cbn [rbind] in H; [| discriminate H].
  all: destruct (DecodeString _ _); discriminate H.
Qed.

(** ** Failures before printing *)

(** X1: when [run] returns an error of a step before printing (options,
    session, armed check, connection, tokens, parsing, decoding), nothing
    was written to the standard output, the pretty printer was not called
    and nothing was saved. *)
Theorem failure_before_print_is_silent (env : Env) (args : Args) (e : RunError) :
  fst (exec env args) = Err e -> before_print e = true ->
  stdout (snd (exec env args)) = ""
  /\ pretty_bodies (snd (exec env args)) = []
  /\ saved (snd (exec env args)) = [].
Proof.
  rewrite exec_steps.
  destruct (check_options args) as [[] | e0]; [| now intros].
  destruct (config_Load env) as [[cfg |] | e0]; [| now intros | now intros].
  destruct (cfg_Armed env cfg) as [[|] | e0]; [| now intros | now intros].
  destruct (cfg_Connection env cfg) as [connection | e0]; [| now intros].
  cbv zeta.
  destruct (Tokens connection) as [[accessToken refreshToken] | e0]; [| now intros].
  destruct (decode _) as [[[hb pb] sb] | e0]; [| now intros].
  rewrite print_steps. cbv zeta.
  destruct (header args); [| destruct (payload args); [| destruct (signature args)]].
  1-3: destruct (snd (dump_Pretty env _)); cbn [fst];
       [intros [= <-]; discriminate
       | destruct (config_Save env _); intros [= <-]; discriminate].
  destruct (config_Save env _); cbn [fst]; intros [= <-]; discriminate.
Qed.

Lemma failure_before_print_is_silent_witness :
  let env := {| config_Load := Ok (Some sample_cfg);
                cfg_Armed := fun _ => Ok false;
                cfg_Connection := fun _ => Ok {| Tokens := Ok (sample_token, sample_token) |};
                dump_Pretty := fun body => (string_of_bytes body, None);
                config_Save := fun _ => None |} in
  fst (exec env (no_flags false)) = Err ErrTokensExpired
  /\ stdout (snd (exec env (no_flags false))) = "".
Proof.
  cbv zeta. split; [reflexivity |].
  eapply (failure_before_print_is_silent _ (no_flags false) ErrTokensExpired);
    reflexivity.
Defined.

(** ** The order of the calls *)

(** X2: whatever the collaborators answer, the events of a run are, in
    order, a beginning of: load the session, check it is armed, create
    the connection, get the tokens, print (through the pretty printer when
    an option asks for a part), save the session. No collaborator is
    called twice or out of turn. *)
Theorem calls_follow_schedule (env : Env) (args : Args) :
  exists rest, map kind (snd (exec env args)) ++ rest = schedule args.
Proof.
  rewrite exec_steps. unfold schedule.
  destruct (check_options args) as [[] | e0]; [| eexists; reflexivity].
  destruct (config_Load env) as [[cfg |] | e0]; [| eexists; reflexivity ..].
  destruct (cfg_Armed env cfg) as [[|] | e0]; [| eexists; reflexivity ..].
  destruct (cfg_Connection env cfg) as [connection | e0]; [| eexists; reflexivity].
  cbv zeta.
  destruct (Tokens connection) as [[accessToken refreshToken] | e0];
    [| eexists; reflexivity].
  destruct (decode _) as [[[hb pb] sb] | e0]; [| eexists; reflexivity].
  rewrite print_steps. cbv zeta.
  destruct (header args); [| destruct (payload args); [| destruct (signature args)]].
  1-3: destruct (snd (dump_Pretty env _)); cbn [snd orb];
       [exists [KSave]; reflexivity | exists []; reflexivity].
  exists []. reflexivity.
Qed.

(** X3: the network is asked for the tokens only after the options were
    accepted, a session was loaded, it reported to be armed and its
    connection was created. *)
Theorem tokens_requested_only_when_armed (env : Env) (args : Args) :
  In CallTokens (snd (exec env args)) ->
  exists cfg connection,
    check_options args = Ok tt
    /\ config_Load env = Ok (Some cfg)
    /\ cfg_Armed env cfg = Ok true
    /\ cfg_Connection env cfg = Ok connection.
Proof.
  rewrite exec_steps.
  destruct (check_options args) as [[] | e0] eqn:Hoptions; [| intros []].
  destruct (config_Load env) as [[cfg |] | e0] eqn:Hload;
    [| cbn; intuition discriminate | cbn; intuition discriminate].
  destruct (cfg_Armed env cfg) as [[|] | e0] eqn:Harmed;
    [| cbn; intuition discriminate | cbn; intuition discriminate].
  destruct (cfg_Connection env cfg) as [connection | e0] eqn:Hconnection;
    [| cbn; intuition discriminate].
  intros _. exists cfg, connection. now repeat split.
Qed.

Lemma tokens_requested_only_when_armed_witness :
  exists cfg connection,
    check_options (no_flags false) = Ok tt
    /\ config_Load (sample_env sample_token "r") = Ok (Some cfg)
    /\ cfg_Armed (sample_env sample_token "r") cfg = Ok true
    /\ cfg_Connection (sample_env sample_token "r") cfg = Ok connection.
Proof.
  apply (tokens_requested_only_when_armed (sample_env sample_token "r") (no_flags false)).
  vm_compute. do 3 right. left. reflexivity.
Defined.

(** ** The result and the save *)

(** X4: a run saves at most once, and its result tells whether it did.
    With no save, the result is an error other than the error of saving.
    With a save, the save is the last event, and the result is what
    [config.Save] answered: [nil], or its error wrapped. *)
Theorem result_tells_save (env : Env) (args : Args) :
  match saved (snd (exec env args)) with
  | [] =>
      exists e, fst (exec env args) = Err e /\ forall err, e <> ErrSaveConfig err
  | [cfg'] =>
      (exists t, snd (exec env args) = t ++ [CallSave cfg'] /\ saved t = [])
      /\ fst (exec env args)
         = match config_Save env cfg' with
           | Some err => Err (ErrSaveConfig err)
           | None => Ok tt
           end
  | _ :: _ :: _ => False
  end.
Proof.
  rewrite exec_steps.
  destruct (check_options args) as [[] | e0] eqn:Hoptions.
  2: { cbn [fst snd saved]. exists e0. split; [reflexivity |].
       unfold check_options in Hoptions.
       destruct (1 <? _); [| discriminate]. injection Hoptions as <-. discriminate. }
  destruct (config_Load env) as [[cfg |] | e0];
    [| cbn; eexists; split; [reflexivity | discriminate] ..].
  destruct (cfg_Armed env cfg) as [[|] | e0];
    [| cbn; eexists; split; [reflexivity | discriminate] ..].
  destruct (cfg_Connection env cfg) as [connection | e0];
    [| cbn; eexists; split; [reflexivity | discriminate]].
  cbv zeta.
  destruct (Tokens connection) as [[accessToken refreshToken] | e0];
    [| cbn; eexists; split; [reflexivity | discriminate]].
  destruct (decode _) as [[[hb pb] sb] | e0] eqn:Hdecode.
  2: { cbn [fst snd saved]. exists e0. split; [reflexivity |].
       intros err ->. now apply decode_error_before_print in Hdecode. }
  rewrite print_steps. cbv zeta.
  destruct (header args); [| destruct (payload args); [| destruct (signature args)]].
  1-3: destruct (snd (dump_Pretty env _)); cbn [fst snd];
       [cbn; eexists; split; [reflexivity | discriminate] |].
  all: cbn [fst snd];
       match goal with
       | |- context [saved (?t ++ [CallSave ?c])] =>
           change (saved (t ++ [CallSave c])) with [c]; cbv iota;
           split; [exists t; split; reflexivity | reflexivity]
       end.
Qed.

(** X5: what [config.Save] answers changes nothing of what the run did
    before: with another save, the calls made and the text written are
    the same. *)
Theorem save_answer_not_seen (env : Env) (save : Config -> option error) (args : Args) :
  snd (exec (with_save env save) args) = snd (exec env args).
Proof.
  rewrite !exec_steps. unfold with_save at 1 2 3 4. cbn [config_Load cfg_Armed cfg_Connection].
  destruct (check_options args) as [[] | e0]; [| reflexivity].
  destruct (config_Load env) as [[cfg |] | e0]; [| reflexivity ..].
  destruct (cfg_Armed env cfg) as [[|] | e0]; [| reflexivity ..].
  destruct (cfg_Connection env cfg) as [connection | e0]; [| reflexivity].
  cbv zeta.
  destruct (Tokens connection) as [[accessToken refreshToken] | e0]; [| reflexivity].
  destruct (decode _) as [[[hb pb] sb] | e0]; [| reflexivity].
  rewrite !print_steps. cbv zeta. cbn [dump_Pretty with_save].
  destruct (header args); [| destruct (payload args); [| destruct (signature args)]].
  1-3: destruct (snd (dump_Pretty env _)); reflexivity.
  reflexivity.
Qed.

(** ** Printing a part *)

(** X6: with one of the options for a part, and a token that decodes,
    the pretty printer is called once, with the decoded bytes of that
    part (header, payload or signature), and the standard output holds
    what it wrote and nothing else: the token itself is not written. *)
Theorem part_option_prints_part (env : Env) (args : Args) (cfg : Config)
        (connection : Connection) (accessToken refreshToken : string)
        (hb pb sb : list byte) :
  check_options args = Ok tt ->
  config_Load env = Ok (Some cfg) ->
  cfg_Armed env cfg = Ok true ->
  cfg_Connection env cfg = Ok connection ->
  Tokens connection = Ok (accessToken, refreshToken) ->
  decode (selectedToken (refresh args) accessToken refreshToken) = Ok (hb, pb, sb) ->
  header args || payload args || signature args = true ->
  let body := if header args then hb else if payload args then pb else sb in
  pretty_bodies (snd (exec env args)) = [body]
  /\ stdout (snd (exec env args)) = fst (dump_Pretty env body).
Proof.
  intros Hoptions Hload Harmed Hconnection Htokens Hdecode Hpart.
  rewrite exec_steps, Hoptions, Hload, Harmed, Hconnection. cbv zeta.
  rewrite Htokens, Hdecode, print_steps. cbv zeta.
  destruct (header args); [| destruct (payload args); [| destruct (signature args)]].
  1-3: destruct (snd (dump_Pretty env _));
       cbn [snd stdout pretty_bodies app]; now rewrite append_empty_r.
  discriminate Hpart.
Qed.

Lemma part_option_prints_part_witness :
  let args := {| header := false; payload := true; signature := false; refresh := false |} in
  pretty_bodies (snd (exec (sample_env sample_token "r") args)) = [sample_payload]
  /\ stdout (snd (exec (sample_env sample_token "r") args))
     = string_of_bytes sample_payload.
Proof.
  cbv zeta.
  apply (part_option_prints_part (sample_env sample_token "r")
           {| header := false; payload := true; signature := false; refresh := false |}
           sample_cfg {| Tokens := Ok (sample_token, "r") |} sample_token "r"
           sample_header sample_payload sample_signature);
    vm_compute; reflexivity.
Defined.

(** X7: when the pretty printer reports an error, [run] returns that
    error, wrapped with the name of the part asked for, and the session is
    not saved: the tokens that the connection refreshed are lost. *)
Theorem printer_failure_stops_the_run (env : Env) (args : Args) (cfg : Config)
        (connection : Connection) (accessToken refreshToken : string)
        (hb pb sb : list byte) (err : error) :
  check_options args = Ok tt ->
  config_Load env = Ok (Some cfg) ->
  cfg_Armed env cfg = Ok true ->
  cfg_Connection env cfg = Ok connection ->
  Tokens connection = Ok (accessToken, refreshToken) ->
  decode (selectedToken (refresh args) accessToken refreshToken) = Ok (hb, pb, sb) ->
  header args || payload args || signature args = true ->
  snd (dump_Pretty env (if header args then hb else if payload args then pb else sb))
  = Some err ->
  fst (exec env args)
  = Err ((if header args then ErrDumpHeader
          else if payload args then ErrDumpPayload else ErrDumpSignature) err)
  /\ saved (snd (exec env args)) = [].
Proof.
  intros Hoptions Hload Harmed Hconnection Htokens Hdecode Hpart Hdump.
  rewrite exec_steps, Hoptions, Hload, Harmed, Hconnection. cbv zeta.
  rewrite Htokens, Hdecode, print_steps. cbv zeta.
  destruct (header args); [| destruct (payload args); [| destruct (signature args)]].
  1-3: rewrite Hdump; split; reflexivity.
  discriminate Hpart.
Qed.

Lemma printer_failure_stops_the_run_witness :
  let env := {| config_Load := Ok (Some sample_cfg);
                cfg_Armed := fun _ => Ok true;
                cfg_Connection := fun _ => Ok {| Tokens := Ok (sample_token, "r") |};
                dump_Pretty := fun body => ("", Some "broken pipe");
                config_Save := fun _ => None |} in
  let args := {| header := true; payload := false; signature := false; refresh := false |} in
  fst (exec env args) = Err (ErrDumpHeader "broken pipe")
  /\ saved (snd (exec env args)) = [].
Proof.
  cbv zeta.
  apply (printer_failure_stops_the_run _
           {| header := true; payload := false; signature := false; refresh := false |}
           sample_cfg {| Tokens := Ok (sample_token, "r") |} sample_token "r"
           sample_header sample_payload sample_signature "broken pipe");
    vm_compute; reflexivity.
Defined.

(** ** What a decoded token was *)

Lemma Split_not_nil (s : string) : Strings.Split s "." <> [].
Proof.
  destruct s as [| c s]; cbn [Strings.Split]; [discriminate |].
  destruct (Ascii.eqb c "."); [discriminate |].
  destruct (Strings.Split s "."); discriminate.
Qed.

(** The first part has no separator; the string is the first part alone,
    or the first part, a separator and a rest that splits in the others. *)
Lemma Split_cons (s first : string) (others : list string) :
  Strings.Split s "." = first :: others ->
  no_dot first = true
  /\ match others with
     | [] => s = first
     | _ :: _ =>
         exists rest, s = (first ++ String "." rest)%string
                      /\ Strings.Split rest "." = others
     end.
Proof.
  revert first others. induction s as [| c s IH]; intros first others H.
  - cbn in H. injection H as <- <-. split; reflexivity.
  - cbn [Strings.Split] in H. destruct (Ascii.eqb c ".") eqn:Hc.
    + apply Ascii.eqb_eq in Hc. subst c. injection H as <- <-.
      split; [reflexivity |].
      destruct (Strings.Split s ".") eqn:Hs; [now apply Split_not_nil in Hs |].
      exists s. split; [reflexivity | exact Hs].
    + destruct (Strings.Split s ".") as [| f o] eqn:Hs; [now apply Split_not_nil in Hs |].
      injection H as <- <-.
      destruct (IH f o eq_refl) as [Hf Ho]. split.
      * unfold no_dot. cbn [list_ascii_of_string forallb]. now rewrite Hc.
      * destruct o as [| o1 o].
        -- now subst s.
        -- destruct Ho as (rest & -> & Hrest). exists rest. split; [reflexivity | exact Hrest].
Qed.

(** Three parts: the string is the parts joined by the separator. *)
Lemma Split_three (token h p s : string) :
  Strings.Split token "." = [h; p; s] ->
  token = join3 h p s /\ no_dot h = true /\ no_dot p = true /\ no_dot s = true.
Proof.
  intros H.
  destruct (Split_cons _ _ _ H) as (Hh & r1 & -> & H1).
  destruct (Split_cons _ _ _ H1) as (Hp & r2 & -> & H2).
  destruct (Split_cons _ _ _ H2) as (Hs & ->).
  repeat split; assumption.
Qed.

(** Padding holds no new line to skip. *)
Lemma skip_newlines_pads (m : nat) (si : Z) :
  skip_newlines (repeat "="%char m) si = (repeat "="%char m, si).
Proof. destruct m; reflexivity. Qed.

(** After the padding of a quantum, more padding is an error. *)
Lemma after_padding_pads (dbuf : list Z) (m : nat) (si : Z) :
  after_padding URLEncoding dbuf (repeat "="%char m) si =
    match m with
    | O => Ok (quantum dbuf)
    | S _ => Err (CorruptInput si)
    end.
Proof.
  unfold after_padding. rewrite skip_newlines_pads.
  rewrite quantum_bytes_nonstrict by reflexivity. now destruct m.
Qed.

(** Padding alone, where the padded decoder accepts it, closes the
    quantum as the end of the input does without padding. *)
Lemma decode_from_pads (m : nat) (dbuf : list Z) (si si' : Z) (bs : list byte) :
  decode_from URLEncoding (repeat "="%char m) si dbuf = Ok bs ->
  decode_from RawURLEncoding [] si' dbuf = Ok bs.
Proof.
  intros Hurl.
  destruct m as [| m].
  - destruct dbuf as [| a [| b dbuf]]; cbn in Hurl; [exact Hurl | discriminate ..].
  - cbn [repeat decode_from] in Hurl.
    change (decodeMap URLEncoding "=") with (@None Z) in Hurl.
    change (is_newline "=") with false in Hurl.
    change (is_pad URLEncoding "=") with true in Hurl.
    cbv iota in Hurl. cbn [negb] in Hurl.
    cbn [decode_from padChar RawURLEncoding].
    rewrite quantum_bytes_nonstrict by reflexivity.
    destruct dbuf as [| a [| b [| c dbuf]]]; cbn [List.length] in Hurl |- *;
      try discriminate.
    + rewrite skip_newlines_pads in Hurl.
      destruct m as [| m]; cbn [repeat] in Hurl; [discriminate |].
      change (is_pad URLEncoding "=") with true in Hurl. cbn [negb] in Hurl.
      rewrite after_padding_pads in Hurl. now destruct m.
    + rewrite after_padding_pads in Hurl. now destruct m.
Qed.

(** Where the padded decoder accepts a text of the alphabet and new lines
    followed by padding, the decoder without padding gives the same bytes
    for the text alone. *)
Lemma decode_from_padded_agrees (l : list ascii) :
  forallb (fun c => in_alphabet c || is_newline c) l = true ->
  forall (m : nat) (dbuf : list Z) (si si' : Z) (bs : list byte),
    decode_from URLEncoding (l ++ repeat "="%char m) si dbuf = Ok bs ->
    decode_from RawURLEncoding l si' dbuf = Ok bs.
Proof.
  induction l as [| c l IH]; intros Hall m dbuf si si' bs Hurl.
  - cbn [app] in Hurl. now apply (decode_from_pads m dbuf si).
  - cbn [forallb] in Hall. apply andb_true_iff in Hall as [Hc Hl].
    cbn [app] in Hurl.
    destruct (in_alphabet c) eqn:Halpha.
    + destruct (in_alphabet_decodeMap c Halpha) as [out Hout].
      rewrite (decode_from_sextet URLEncoding c _ si dbuf out Hout) in Hurl.
      rewrite (decode_from_sextet RawURLEncoding c _ si' dbuf out Hout).
      rewrite !quantum_bytes_nonstrict in * by reflexivity. cbn [rbind] in *.
      destruct (List.length (dbuf ++ [out]) =? 4)%nat.
      * destruct (decode_from URLEncoding (l ++ repeat "="%char m) (si + 1) [])
          as [bs0 |] eqn:Hrest; [| discriminate].
        rewrite (IH Hl m [] (si + 1) (si' + 1) bs0 Hrest). exact Hurl.
      * eapply IH; eassumption.
    + cbn [orb] in Hc.
      pose proof (not_in_alphabet_decodeMap c Halpha) as Hnone.
      rewrite (decode_from_newline URLEncoding c _ si dbuf Hnone Hc) in Hurl.
      rewrite (decode_from_newline RawURLEncoding c _ si' dbuf Hnone Hc).
      eapply IH; eassumption.
Qed.

(** A segment that both decoders accept: the bytes are the same. *)
Lemma segment_decoders_agree (seg : string) (bs bs' : list byte) :
  Jwt.DecodeSegment seg = Ok bs ->
  DecodeString RawURLEncoding seg = Ok bs' ->
  offending seg = false /\ bs' = bs.
Proof.
  intros Hjwt Hraw.
  destruct (offending seg) eqn:Hoff.
  { destruct (offending_segment_fails seg Hoff) as [e He]. congruence. }
  split; [reflexivity |].
  assert (Hall : forallb (fun c => in_alphabet c || is_newline c)
                         (list_ascii_of_string seg) = true).
  { rewrite forallb_forall. intros c Hc.
    destruct (in_alphabet c || is_newline c) eqn:E; [reflexivity |].
    apply orb_false_iff in E as [E1 E2].
    assert (Hex : existsb (fun c => negb (in_alphabet c) && negb (is_newline c))
                          (list_ascii_of_string seg) = true).
    { apply existsb_exists. exists c. split; [exact Hc |]. now rewrite E1, E2. }
    unfold offending in Hoff. congruence. }
  unfold Jwt.DecodeSegment, DecodeString in Hjwt. unfold DecodeString in Hraw.
  destruct (0 <? String.length seg mod 4)%nat.
  - rewrite list_ascii_of_string_app, (list_ascii_of_Repeat "="%char) in Hjwt.
    rewrite (decode_from_padded_agrees _ Hall _ _ _ 0 _ Hjwt) in Hraw. congruence.
  - rewrite <- (app_nil_r (list_ascii_of_string seg)) in Hjwt.
    change (@nil ascii) with (repeat "="%char 0) in Hjwt.
    rewrite (decode_from_padded_agrees _ Hall _ _ _ 0 _ Hjwt) in Hraw. congruence.
Qed.

(** X8: whenever [decode] succeeds, the token is three segments joined
    by ['.'], none with a padding character or another character that is
    neither of the alphabet nor a new line; the three buffers are the
    segments decoded without padding; and the header and payload
    returned are the very bytes whose JSON the JWT parser accepted. *)
Theorem decode_ok_shape (token : string) (hb pb sb : list byte) :
  decode token = Ok (hb, pb, sb) ->
  exists h p s,
    token = join3 h p s
    /\ Strings.Split token "." = [h; p; s]
    /\ offending h || offending p || offending s = false
    /\ DecodeString RawURLEncoding h = Ok hb
    /\ DecodeString RawURLEncoding p = Ok pb
    /\ DecodeString RawURLEncoding s = Ok sb
    /\ header_accepted hb = true
    /\ claims_accepted pb = true.
Proof.
  intros Hdec.
  assert (Hlen : List.length (Strings.Split token ".") = 3%nat).
  { unfold decode, Jwt.ParseUnverified in Hdec.
    destruct (Nat.eqb_spec (List.length (Strings.Split token ".")) 3) as [E | E];
      [exact E | discriminate Hdec]. }
  destruct (Strings.Split token ".") as [| h [| p [| s [| x parts]]]] eqn:Hsplit;
    try discriminate Hlen.
  exists h, p, s.
  destruct (Split_three _ _ _ _ Hsplit) as (Hjoin & _).
  pose proof (decode_three_segments token h p s Hsplit) as H3.
  destruct (Jwt.DecodeSegment h) as [hb0 |] eqn:Hjh;
    [| destruct H3 as [e0 He]; congruence].
  destruct (Jwt.DecodeSegment p) as [pb0 |] eqn:Hjp;
    [| destruct H3 as [e0 He]; congruence].
  destruct (header_accepted hb0 && claims_accepted pb0) eqn:Hacc;
    [| destruct H3 as [e0 He]; congruence].
  apply andb_true_iff in Hacc as [Hha Hca].
  rewrite H3 in Hdec. unfold decode_parts in Hdec.
  destruct (DecodeString RawURLEncoding h) as [hb1 |] eqn:Hh; [| discriminate].
  destruct (DecodeString RawURLEncoding p) as [pb1 |] eqn:Hp; [| discriminate].
  destruct (DecodeString RawURLEncoding s) as [sb1 |] eqn:Hs; [| discriminate].
  injection Hdec as -> -> ->.
  destruct (segment_decoders_agree h hb0 hb Hjh Hh) as [Hoh ->].
  destruct (segment_decoders_agree p pb0 pb Hjp Hp) as [Hop ->].
  assert (Hos : offending s = false).
  { destruct (offending s) eqn:E; [| reflexivity].
    destruct (offending_segment_fails s E) as [e0 He]. congruence. }
  rewrite Hoh, Hop, Hos. repeat split; assumption.
Qed.

Lemma decode_ok_shape_witness :
  exists h p s,
    sample_token = join3 h p s
    /\ Strings.Split sample_token "." = [h; p; s]
    /\ offending h || offending p || offending s = false
    /\ DecodeString RawURLEncoding h = Ok sample_header
    /\ DecodeString RawURLEncoding p = Ok sample_payload
    /\ DecodeString RawURLEncoding s = Ok sample_signature
    /\ header_accepted sample_header = true
    /\ claims_accepted sample_payload = true.
Proof.
  apply (decode_ok_shape sample_token sample_header sample_payload sample_signature).
  vm_compute. reflexivity.
Defined.

(** ** The number of segments *)

(** Splitting gives one part more than there are separators. *)
Lemma Split_length (s : string) :
  List.length (Strings.Split s ".") = S (dots s).
Proof.
  unfold dots. induction s as [| c s IH]; [reflexivity |].
  cbn [Strings.Split list_ascii_of_string filter].
  destruct (Ascii.eqb c ".").
  - cbn [List.length]. now rewrite IH.
  - destruct (Strings.Split s ".") as [| f o]; [discriminate IH | exact IH].
Qed.

(** X9: [decode] fails with the parser's error of an invalid number of
    segments exactly for the tokens that do not have two ['.']: no other
    token gets this error, whatever else is wrong with it. *)
Theorem invalid_segments_iff_dots (token : string) :
  decode token = Err (ErrParseToken Jwt.InvalidSegments) <-> dots token <> 2%nat.
Proof.
  pose proof (Split_length token) as Hlen.
  unfold decode, Jwt.ParseUnverified.
  destruct (Nat.eqb_spec (List.length (Strings.Split token ".")) 3) as [E | E];
    cbn [negb].
  - split; [| intros Hd; exfalso; apply Hd; congruence].
    intros H. exfalso.
    destruct (Jwt.DecodeSegment _) as [hb | e1].
    2: { destruct (Strings.HasPrefix _ _); discriminate H. }
    destruct (Json.Unmarshal hb) as [Header | e3]; [| discriminate H].
    destruct (Jwt.DecodeSegment _) as [pb | e2]; [| discriminate H].
    destruct (Json.Decode pb) as [claims | e4]; [| discriminate H].
    destruct (Json.lookup _ Header) as [[] |]; try discriminate H.
    destruct (Jwt.GetSigningMethod _); [| discriminate H].
    unfold index, rbind in H.
    repeat (destruct (nth_error _ _); [| discriminate H];
            destruct (DecodeString _ _); [| discriminate H]).
    discriminate H.
  - split; [intros _ Hd; apply E; congruence | reflexivity].
Qed.

Lemma invalid_segments_iff_dots_witness :
  decode "eyJhbGciOiJub25lIn0.eyJzdWIiOiJ4In0" = Err (ErrParseToken Jwt.InvalidSegments).
Proof.
  apply (proj2 (invalid_segments_iff_dots "eyJhbGciOiJub25lIn0.eyJzdWIiOiJ4In0")).
  vm_compute. lia.
Defined.

(** ** What the decoder without padding accepts *)

Lemma quantum_length (dbuf : list Z) :
  (List.length dbuf <= 4)%nat ->
  List.length (quantum dbuf) = (List.length dbuf * 3 / 4)%nat.
Proof.
  intros H.
  destruct dbuf as [| a [| b [| c [| d [| e0 dbuf]]]]]; try reflexivity.
  cbn [List.length] in H. lia.
Qed.

(** The decoder without padding on characters of the alphabet and new
    lines: with [n] sextets, those of [dbuf] included, it fails when [n]
    is one more than a multiple of four, and gives [3n/4] bytes
    otherwise. *)
Lemma decode_from_raw_count (l : list ascii) :
  forallb (fun c => in_alphabet c || is_newline c) l = true ->
  forall (dbuf : list Z) (si : Z),
    (List.length dbuf < 4)%nat ->
    let n := (List.length dbuf + List.length (filter in_alphabet l))%nat in
    if (n mod 4 =? 1)%nat
    then is_ok (decode_from RawURLEncoding l si dbuf) = false
    else exists bs, decode_from RawURLEncoding l si dbuf = Ok bs
                    /\ List.length bs = (n * 3 / 4)%nat.
Proof.
  induction l as [| c l IH]; intros Hall dbuf si Hlen; cbv zeta.
  - cbn [filter List.length]. rewrite Nat.add_0_r.
    destruct dbuf as [| a [| b [| c [| d dbuf]]]]; cbn [List.length] in Hlen; try lia.
    + cbn. eauto.
    + reflexivity.
    + cbn [decode_from List.length padChar RawURLEncoding].
      rewrite quantum_bytes_nonstrict by reflexivity.
      change ((2 mod 4 =? 1)%nat) with false. cbv iota.
      exists (quantum [a; b]). split; reflexivity.
    + cbn [decode_from List.length padChar RawURLEncoding].
      rewrite quantum_bytes_nonstrict by reflexivity.
      change ((3 mod 4 =? 1)%nat) with false. cbv iota.
      exists (quantum [a; b; c]). split; reflexivity.
  - cbn [forallb] in Hall. apply andb_true_iff in Hall as [Hc Hl].
    cbn [filter]. destruct (in_alphabet c) eqn:Halpha.
    + destruct (in_alphabet_decodeMap c Halpha) as [out Hout].
      rewrite (decode_from_sextet RawURLEncoding c _ si dbuf out Hout).
      rewrite quantum_bytes_nonstrict by reflexivity. cbn [rbind List.length].
      rewrite length_app. cbn [List.length].
      destruct (Nat.eqb_spec (List.length dbuf + 1) 4) as [E | E].
      * specialize (IH Hl [] (si + 1) ltac:(cbn; lia)). cbv zeta in IH.
        cbn [List.length Nat.add] in IH.
        replace (List.length dbuf + S (List.length (filter in_alphabet l)))%nat
          with (List.length (filter in_alphabet l) + 1 * 4)%nat by lia.
        rewrite Nat.Div0.mod_add.
        destruct (List.length (filter in_alphabet l) mod 4 =? 1)%nat.
        -- destruct (decode_from RawURLEncoding l (si + 1) []);
             [discriminate IH | reflexivity].
        -- destruct IH as (bs & -> & Hbs). cbn [rmap]. eexists. split; [reflexivity |].
           rewrite length_app, Hbs, quantum_length, length_app
             by (rewrite length_app; cbn [List.length]; lia).
           cbn [List.length]. rewrite E.
           replace ((List.length (filter in_alphabet l) + 1 * 4) * 3)%nat
             with (List.length (filter in_alphabet l) * 3 + 3 * 4)%nat by lia.
           rewrite Nat.div_add by lia. change (4 * 3 / 4)%nat with 3%nat. lia.
      * specialize (IH Hl (dbuf ++ [out]) (si + 1)
                       ltac:(rewrite length_app; cbn [List.length]; lia)).
        cbv zeta in IH. rewrite length_app in IH. cbn [List.length] in IH.
        replace (List.length dbuf + S (List.length (filter in_alphabet l)))%nat
          with (List.length dbuf + 1 + List.length (filter in_alphabet l))%nat by lia.
        exact IH.
    + cbn [orb] in Hc.
      pose proof (not_in_alphabet_decodeMap c Halpha) as Hnone.
      rewrite (decode_from_newline RawURLEncoding c _ si dbuf Hnone Hc).
      now apply IH.
Qed.

(** X10: the decoder without padding accepts a segment exactly when all
    its characters are of the base64url alphabet or new lines and the
    number of those of the alphabet is not one more than a multiple of
    four; it then gives three bytes for four such characters, rounded
    down. *)
Theorem raw_decoder_accepts (seg : string) :
  match DecodeString RawURLEncoding seg with
  | Ok bs =>
      offending seg = false
      /\ (sextets seg mod 4)%nat <> 1%nat
      /\ List.length bs = (sextets seg * 3 / 4)%nat
  | Err _ => offending seg = true \/ (sextets seg mod 4)%nat = 1%nat
  end.
Proof.
  destruct (offending seg) eqn:Hoff.
  { destruct (offending_segment_fails seg Hoff) as [e0 ->]. now left. }
  assert (Hall : forallb (fun c => in_alphabet c || is_newline c)
                         (list_ascii_of_string seg) = true).
  { rewrite forallb_forall. intros c Hc.
    destruct (in_alphabet c || is_newline c) eqn:E; [reflexivity |].
    apply orb_false_iff in E as [E1 E2].
    assert (Hex : existsb (fun c => negb (in_alphabet c) && negb (is_newline c))
                          (list_ascii_of_string seg) = true).
    { apply existsb_exists. exists c. split; [exact Hc |]. now rewrite E1, E2. }
    unfold offending in Hoff. congruence. }
  pose proof (decode_from_raw_count _ Hall [] 0 ltac:(cbn; lia)) as H.
  cbv zeta in H. cbn [List.length Nat.add] in H.
  unfold DecodeString, sextets.
  destruct (Nat.eqb_spec (List.length (filter in_alphabet (list_ascii_of_string seg)) mod 4) 1)
    as [E | E].
  - destruct (decode_from RawURLEncoding (list_ascii_of_string seg) 0 []);
      [discriminate H | now right].
  - destruct H as (bs & -> & Hbs). repeat split; assumption.
Qed.

(** ** A token copied with its scheme *)

Lemma lower_space (c : ascii) : Strings.lower c = " "%char -> c = " "%char.
Proof.
  destruct c as [[] [] [] [] [] [] [] []]; vm_compute; intros H;
    first [reflexivity | discriminate H].
Qed.

Lemma skip_newlines_space (l : list ascii) (si : Z) :
  In " "%char l -> In " "%char (fst (skip_newlines l si)).
Proof.
  revert si. induction l as [| c l IH]; intros si Hin; [exact Hin |].
  cbn [skip_newlines]. destruct (is_newline c) eqn:Hn; [| exact Hin].
  apply IH. destruct Hin as [-> | Hin]; [discriminate Hn | exact Hin].
Qed.

Lemma after_padding_space (dbuf : list Z) (src : list ascii) (si : Z) :
  In " "%char src -> is_ok (after_padding URLEncoding dbuf src si) = false.
Proof.
  intros Hin. unfold after_padding.
  pose proof (skip_newlines_space src si Hin) as Hrest.
  destruct (skip_newlines src si) as [rest si1]. cbn [fst] in Hrest.
  rewrite quantum_bytes_nonstrict by reflexivity. cbn [rbind].
  destruct rest; [contradiction Hrest | reflexivity].
Qed.

(** The padded decoder refuses any text with a space. *)
Lemma decode_from_space (l : list ascii) :
  In " "%char l ->
  forall (si : Z) (dbuf : list Z), is_ok (decode_from URLEncoding l si dbuf) = false.
Proof.
  induction l as [| c l IH]; intros Hin si dbuf; [contradiction Hin |].
  destruct Hin as [-> | Hin]; [reflexivity |].
  cbn [decode_from]. destruct (decodeMap URLEncoding c) as [out |].
  - destruct (List.length (dbuf ++ [out]) =? 4)%nat; [| now apply IH].
    rewrite quantum_bytes_nonstrict by reflexivity. cbn [rbind].
    specialize (IH Hin (si + 1) []).
    destruct (decode_from URLEncoding l (si + 1) []); [discriminate IH | reflexivity].
  - destruct (is_newline c); [now apply IH |].
    destruct (is_pad URLEncoding c) eqn:Hpad; cbn [negb]; [| reflexivity].
    destruct (List.length dbuf) as [| [| [| n]]]; try reflexivity.
    + pose proof (skip_newlines_space l (si + 1) Hin) as Hrest.
      destruct (skip_newlines l (si + 1)) as [rest1 si1]. cbn [fst] in Hrest.
      destruct rest1 as [| c1 rest2]; [contradiction Hrest |].
      destruct (is_pad URLEncoding c1) eqn:Hpad1; cbn [negb]; [| reflexivity].
      apply after_padding_space.
      destruct Hrest as [-> | Hrest]; [discriminate Hpad1 | exact Hrest].
    + now apply after_padding_space.
Qed.

Lemma DecodeSegment_space (seg : string) :
  In " "%char (list_ascii_of_string seg) -> is_ok (Jwt.DecodeSegment seg) = false.
Proof.
  intros Hin. unfold Jwt.DecodeSegment, DecodeString.
  apply decode_from_space.
  destruct (0 <? String.length seg mod 4)%nat; [| exact Hin].
  rewrite list_ascii_of_string_app. apply in_or_app. now left.
Qed.

(** A space before the first separator is in the first part. *)
Lemma Split_first_space (pre rest : string) :
  no_dot pre = true ->
  In " "%char
     (list_ascii_of_string (nth 0 (Strings.Split (pre ++ String " " rest) ".") "")).
Proof.
  induction pre as [| c pre IH]; intros Hpre.
  - cbn [append Strings.Split]. change (Ascii.eqb " " ".") with false. cbv iota.
    destruct (Strings.Split rest "."); now left.
  - unfold no_dot in Hpre. cbn [list_ascii_of_string forallb] in Hpre.
    apply andb_true_iff in Hpre as [Hc Hpre]. apply negb_true_iff in Hc.
    specialize (IH Hpre).
    cbn [append Strings.Split]. rewrite Hc.
    destruct (Strings.Split (pre ++ String " " rest) ".") as [| f o];
      [now left | right; exact IH].
Qed.

(** X11: a token that begins with the scheme [bearer] and a space, in any
    case of the letters, and has two ['.'], is refused by the parser with
    the error that says so: the space makes the header segment fail to
    decode, and the parser then looks for this beginning. *)
Theorem bearer_prefix_refused (token : string) :
  Strings.HasPrefix (Strings.ToLower token) "bearer " = true ->
  dots token = 2%nat ->
  decode token = Err (ErrParseToken Jwt.ContainsBearer).
Proof.
  intros Hprefix Hdots.
  assert (Hspace : is_ok (Jwt.DecodeSegment (nth 0 (Strings.Split token ".") "")) = false).
  { apply DecodeSegment_space.
    unfold Strings.HasPrefix in Hprefix.
    destruct token as [| c0 [| c1 [| c2 [| c3 [| c4 [| c5 [| c6 rest]]]]]]];
      try discriminate Hprefix.
    all: cbn [String.prefix Strings.ToLower] in Hprefix.
    all: repeat match type of Hprefix with
           | context [ascii_dec ?a ?b] => destruct (ascii_dec a b); [| discriminate Hprefix]
           end.
    all: try discriminate Hprefix.
    assert (c6 = " "%char) as -> by (apply lower_space; congruence).
    apply (Split_first_space
             (String c0 (String c1 (String c2 (String c3 (String c4 (String c5 "")))))) rest).
    unfold no_dot. cbn [list_ascii_of_string forallb].
    repeat match goal with
           | |- context [Ascii.eqb ?c "."] =>
               destruct (Ascii.eqb_spec c "."); [subst c; discriminate |]
           end.
    reflexivity. }
  pose proof (Split_length token) as Hlen. rewrite Hdots in Hlen.
  unfold decode, Jwt.ParseUnverified. rewrite Hlen. cbn [Nat.eqb negb].
  destruct (Jwt.DecodeSegment _); [discriminate Hspace |].
  now rewrite Hprefix.
Qed.

Lemma bearer_prefix_refused_witness :
  decode "Bearer eyJhbGciOiJub25lIn0.eyJzdWIiOiJ4In0.c2ln"
  = Err (ErrParseToken Jwt.ContainsBearer).
Proof.
  apply (bearer_prefix_refused "Bearer eyJhbGciOiJub25lIn0.eyJzdWIiOiJ4In0.c2ln");
    vm_compute; reflexivity.
Defined.

(** ** The error and how far the run got *)

(** X12: the result of a run tells the calls it made: on success all
    of them, load, armed, connection, tokens, print and save; on an error
    those before the step that the error names, so that an error of the
    options means no call at all and an error of saving means all. *)
Theorem result_tells_progress (env : Env) (args : Args) :
  map kind (snd (exec env args))
  = match fst (exec env args) with
    | Ok _ => schedule args
    | Err e => progress args e
    end.
Proof.
  rewrite exec_steps. unfold schedule.
  destruct (check_options args) as [[] | e0] eqn:Hoptions.
  2: { unfold check_options in Hoptions.
       destruct (1 <? _); [| discriminate]. now injection Hoptions as <-. }
  destruct (config_Load env) as [[cfg |] | e0]; [| reflexivity ..].
  destruct (cfg_Armed env cfg) as [[|] | e0]; [| reflexivity ..].
  destruct (cfg_Connection env cfg) as [connection | e0]; [| reflexivity].
  cbv zeta.
  destruct (Tokens connection) as [[accessToken refreshToken] | e0]; [| reflexivity].
  destruct (decode _) as [[[hb pb] sb] | e0] eqn:Hdecode.
  2: { apply decode_error_kind in Hdecode. now destruct e0. }
  rewrite print_steps. cbv zeta. unfold progress, schedule.
  destruct (header args); [| destruct (payload args); [| destruct (signature args)]].
  1-3: destruct (snd (dump_Pretty env _)); [reflexivity |].
  all: cbn [fst snd orb]; destruct (config_Save env _); reflexivity.
Qed.

(** X13: [run] never fails by indexing the parts of the token out of
    range: where it reads [parts[0]], [parts[1]] and [parts[2]], the
    parser has returned three parts. *)
Theorem run_never_panics (env : Env) (args : Args) :
  fst (exec env args) <> Err PanicIndexOutOfRange.
Proof.
  rewrite exec_steps.
  destruct (check_options args) as [[] | e0] eqn:Hoptions.
  2: { unfold check_options in Hoptions.
       destruct (1 <? _); [| discriminate]. now injection Hoptions as <-. }
  destruct (config_Load env) as [[cfg |] | e0]; [| discriminate ..].
  destruct (cfg_Armed env cfg) as [[|] | e0]; [| discriminate ..].
  destruct (cfg_Connection env cfg) as [connection | e0]; [| discriminate].
  cbv zeta.
  destruct (Tokens connection) as [[accessToken refreshToken] | e0]; [| discriminate].
  destruct (decode _) as [[[hb pb] sb] | e0] eqn:Hdecode.
  2: { cbn [fst]. intros [= ->]. now apply decode_error_kind in Hdecode. }
  rewrite print_steps. cbv zeta.
  destruct (header args); [| destruct (payload args); [| destruct (signature args)]].
  1-3: destruct (snd (dump_Pretty env _)); [discriminate |].
  all: cbn [fst]; destruct (config_Save env _); discriminate.
Qed.

(** X14: [run] returns the error of mutually exclusive options exactly
    when more than one of the options for a part is set; no failure of a
    later step is reported as this one, and the option for the refresh
    token plays no part in it. *)
Theorem options_error_iff (env : Env) (args : Args) :
  fst (exec env args) = Err ErrMutuallyExclusive <-> (1 < flags_set args)%nat.
Proof.
  rewrite exec_steps.
  destruct (check_options args) as [[] | e0] eqn:Hoptions.
  - assert (Hflags : (flags_set args <= 1)%nat).
    { destruct args as [[|] [|] [|] r]; cbn in Hoptions |- *; first [lia | discriminate]. }
    split; [| lia]. intros H. exfalso.
    destruct (config_Load env) as [[cfg |] | e0]; [| discriminate ..].
    destruct (cfg_Armed env cfg) as [[|] | e0]; [| discriminate ..].
    destruct (cfg_Connection env cfg) as [connection | e0]; [| discriminate].
    cbv zeta in H.
    destruct (Tokens connection) as [[accessToken refreshToken] | e0]; [| discriminate].
    destruct (decode _) as [[[hb pb] sb] | e0] eqn:Hdecode.
    2: { cbn [fst] in H. injection H as ->. now apply decode_error_kind in Hdecode. }
    rewrite print_steps in H. cbv zeta in H.
    destruct (header args); [| destruct (payload args); [| destruct (signature args)]].
    1-3: destruct (snd (dump_Pretty env _)); [discriminate |].
    all: cbn [fst] in H; destruct (config_Save env _); discriminate.
  - assert (e0 = ErrMutuallyExclusive /\ (1 < flags_set args)%nat) as [-> Hflags].
    { destruct args as [[|] [|] [|] r]; cbn in Hoptions |- *;
        first [discriminate | injection Hoptions as <-; split; [reflexivity | lia]]. }
    split; [intros _; exact Hflags | reflexivity].
Qed.

Lemma options_error_iff_witness :
  fst (exec (sample_env sample_token sample_token)
            {| header := true; payload := false; signature := true; refresh := true |})
  = Err ErrMutuallyExclusive.
Proof.
  apply (proj2 (options_error_iff (sample_env sample_token sample_token)
                  {| header := true; payload := false; signature := true;
                     refresh := true |})).
  vm_compute. lia.
Defined.
